(** * The HTTP example server of pistache (main.cc)

    A shallow embedding of [MyHandler], [LoadMonitor], [StatsEndpoint] and
    [main], followed by the properties of the handlers, of the metrics
    store, of the load monitor and of the process configuration.

    Conventions of the embedding:
    - a C++ [int] is a [Z] kept in the signed 32-bit range by [Int.wrap];
    - a [std::vector<Metric>] is a [list Metric], an iterator is an index,
      [std::end] is the length; a read through the end kills the process
      when the vector has no storage and finds an arbitrary element
      otherwise;
    - what a handler does to its response, to its timeout and to the
      standard output is recorded, in program order, as a list of
      [action]s;
    - a [double] is a [spec_float] (IEEE 754 as specified in SpecFloat). *)

From Stdlib Require Import ZArith List String Ascii Bool Lia.
From Stdlib Require Import DecimalString.
From Stdlib Require Import Floats.SpecFloat.
Import ListNotations.

Local Open Scope string_scope.
Local Open Scope list_scope.

(** ** Machine integers *)

Module Int.

Definition max : Z := 2147483647.
Definition min : Z := -2147483648.

(** Two's complement reduction to [w] bits, signed. *)
Definition signed (w : Z) (z : Z) : Z :=
  (z + 2 ^ (w - 1)) mod 2 ^ w - 2 ^ (w - 1).

(** [int] arithmetic: 32 bits. The language leaves signed overflow
    undefined; the model takes the two's complement result. *)
Definition wrap (z : Z) : Z := signed 32 z.

Definition add (a b : Z) : Z := wrap (a + b).

(** A [long] is 64 bits on the platforms the server builds on. *)
Definition long_min : Z := - 2 ^ 63.
Definition long_max : Z := 2 ^ 63 - 1.

(** Conversion to [uint16_t]. *)
Definition to_uint16 (z : Z) : Z := z mod 65536.

(** [std::to_string(int)]: decimal digits, a leading minus sign for a
    negative number. *)
Definition to_string (z : Z) : string :=
  NilZero.string_of_int (Z.to_int z).

End Int.

(** ** The HTTP vocabulary used by the handlers *)

Module Http.

Inductive Method := Options | Get | Post | Head | Put | Delete | Trace | Connect.

Definition Method_eqb (a b : Method) : bool :=
  match a, b with
  | Options, Options | Get, Get | Post, Post | Head, Head
  | Put, Put | Delete, Delete | Trace, Trace | Connect, Connect => true
  | _, _ => false
  end.

Inductive Code := Ok | Created | Not_Found | Request_Timeout.

(** Modelled from the spec: the numeric status of each code (the
    enumeration itself is declared in the library's headers). *)
Definition status (c : Code) : Z :=
  match c with
  | Ok => 200
  | Created => 201
  | Not_Found => 404
  | Request_Timeout => 408
  end.

Inductive MimeType := Text | Application.
Inductive MimeSubtype := Plain | Html | Json.

Record MediaType := MIME { top : MimeType; sub : MimeSubtype }.

Inductive Header :=
| Server (token : string)
| ContentType (mime : MediaType).

(** A decoded query string; [has] is the membership test of
    [Uri::Query]. *)
Definition Query := list (string * string).

Fixpoint has (q : Query) (key : string) : bool :=
  match q with
  | [] => false
  | (k, _) :: rest => (k =? key) || has rest key
  end.

Record Request := mkRequest {
  method : Method;
  resource : string;
  query : Query;
  body : string
}.

End Http.

Module Rest.

(** The request a route handler receives: [param] looks up what the
    router captured for a placeholder of the route's pattern. *)
Record Request := mkRequest { param : string -> string }.

End Rest.

(** ** Observable actions *)

Inductive cout_item :=
| Str (s : string)
| Int_ (n : Z)
| Dbl (d : spec_float)
| Endl.

Inductive action :=
| Arm (seconds : Z)
| Cout (items : list cout_item)
| AddHeader (h : Http.Header)
| Send (code : Http.Code) (body : string) (mime : option Http.MediaType)
| Stream (code : Http.Code)
| StreamWrite (chunk : string)
| Ends
| ServeFile (path : string)
| Throw (what : string)
| OutOfRange (index : nat).

(** The three ways [Response::send] is called. *)
Definition send_code (c : Http.Code) : action := Send c "" None.
Definition send_body (c : Http.Code) (b : string) : action := Send c b None.
Definition send_mime (c : Http.Code) (b : string) (m : Http.MediaType) : action :=
  Send c b (Some m).

Definition is_send (a : action) : bool :=
  match a with Send _ _ _ => true | _ => false end.

Definition is_write (a : action) : bool :=
  match a with StreamWrite _ => true | _ => false end.

Definition is_arm (a : action) : bool :=
  match a with Arm _ => true | _ => false end.

Definition is_out_of_range (a : action) : bool :=
  match a with OutOfRange _ => true | _ => false end.

(** Whether an action puts (part of) a response on the wire or opens one. *)
Definition is_response (a : action) : bool :=
  match a with
  | Send _ _ _ | Stream _ | StreamWrite _ | Ends | ServeFile _ => true
  | _ => false
  end.

Definition sends (t : list action) : list action := filter is_send t.

(** The body a stream carries: its chunks in the order written. *)
Fixpoint streamed (t : list action) : string :=
  match t with
  | [] => ""
  | StreamWrite c :: rest => c ++ streamed rest
  | _ :: rest => streamed rest
  end.

(** ** MyHandler *)

Module MyHandler.

Import Http.

Definition onRequest (req : Request) : list action :=
  if resource req =? "/ping" then
    if Method_eqb (method req) Get then
      Arm 2 ::
      (if has (query req) "chunked" then
         [ Cout [Str "Using chunked encoding"; Endl];
           AddHeader (Server "lys");
           AddHeader (ContentType (MIME Text Plain));
           Stream Ok;
           StreamWrite "PO";
           StreamWrite "NG";
           Ends ]
       else [])
    else []
  else if resource req =? "/echo" then
    if Method_eqb (method req) Post then
      [ send_mime Ok (body req) (MIME Text Plain) ]
    else []
  else if resource req =? "/exception" then
    [ Throw "Exception thrown in the handler" ]
  else if resource req =? "/timeout" then
    [ Arm 5 ]
  else if resource req =? "/static" then
    if Method_eqb (method req) Get then
      [ ServeFile "README.md" ]
    else []
  else [].

(** The continuation attached to [serveFile]. *)
Definition onServed (bytes : Z) : list action :=
  [ Cout [Str "Sent "; Int_ bytes; Str " bytes"; Endl] ].

Definition onTimeout (req : Request) : list action :=
  [ send_body Request_Timeout "Timeout" ].

End MyHandler.


(** ** LoadMonitor *)

Module LoadMonitor.

Definition double := spec_float.

(** Conversion of an [int] to binary64 (53 bits of mantissa, exponent
    of the infinities 1024); exact on the constants below. *)
Definition of_int (z : Z) : double := binary_normalize 53 1024 z 0 false.

(** The constants [1] and [100] the loads are compared with. *)
Definition one : double := Eval vm_compute in of_int 1.
Definition hundred : double := Eval vm_compute in of_int 100.

(** [a > b] on doubles; false as soon as one side is a NaN. *)
Definition gt (a b : double) : bool := SFltb b a.
Definition le (a b : double) : bool := SFleb a b.

(** The snapshot handed out by the listener; [global] is the only field
    the monitor reads. *)
Record Load := mkLoad { global : double }.

Inductive event :=
| RequestLoad (old : Load)
| Log (items : list cout_item)
| Sleep (seconds : Z).

Definition is_sleep (e : event) : bool :=
  match e with Sleep _ => true | _ => false end.

Definition is_request (e : event) : bool :=
  match e with RequestLoad _ => true | _ => false end.

(** The line printed by the continuation of [requestLoad]. *)
Definition report (load : Load) : list cout_item :=
  let global := global load in
  let global := if gt global hundred then hundred else global in
  if gt global one then
    [Str "Global load is "; Dbl global; Str "%"; Endl]
  else
    [Str "Global load is 0%"; Endl].

(** The continuation itself: it stores the snapshot in [old] and prints. *)
Definition onLoad (load : Load) : Load * list event :=
  (load, [Log (report load)]).

(** What one evaluation of the loop reads from its surroundings: the
    shutdown flag at the loop test, the answer of [isBound], and the
    snapshot the listener fulfils the request with, if it does. *)
Record poll := mkPoll {
  shutdown_seen : bool;
  bound : bool;
  sample : option Load
}.

Inductive status :=
| Running (old : Load)
| Returned.

(** The snapshot held in [old] after an iteration that made the request,
    and what that iteration printed. *)
Definition kept (old : Load) (p : poll) : Load :=
  match sample p with Some load => fst (onLoad load) | None => old end.

Definition printed (p : poll) : list event :=
  match sample p with Some load => snd (onLoad load) | None => [] end.

(** [run], over the successive readings of the loop. With the readings
    exhausted the thread is still inside the loop. *)
Fixpoint run (interval : Z) (old : Load) (polls : list poll)
  : list event * status :=
  match polls with
  | [] => ([], Running old)
  | p :: rest =>
      if shutdown_seen p then ([], Returned)
      else if negb (bound p) then run interval old rest
      else
        let '(later, st) := run interval (kept old p) rest in
        (RequestLoad old :: printed p ++ Sleep interval :: later, st)
  end.

(** The object: its interval, its flag, and whether a thread was started. *)
Record t := mk {
  interval : Z;
  shutdown_ : bool;
  thread : bool
}.

Inductive call :=
| Spawn
| Join.


Definition setInterval (m : t) (secs : Z) : t :=
  {| interval := secs; shutdown_ := shutdown_ m; thread := thread m |}.

Definition start (m : t) : t * list call :=
  ({| interval := interval m; shutdown_ := false; thread := true |}, [Spawn]).

Definition shutdown (m : t) : t * list call :=
  ({| interval := interval m; shutdown_ := true; thread := thread m |}, []).


End LoadMonitor.

(** ** A store-and-trace monad for the route handlers *)

Module Handler.

(** How a computation ends: with a value, or with the process killed by
    the operating system at an access to memory it does not own. *)
Inductive result (A : Type) : Type :=
| Value (a : A)
| Killed.

Arguments Value {A} a.
Arguments Killed {A}.

Definition M (S A : Type) : Type := S -> result A * S * list action.

Definition ret {S A : Type} (a : A) : M S A := fun s => (Value a, s, []).

(** Sequencing: nothing follows the point where the process is killed. *)
Definition bind {S A B : Type} (c : M S A) (k : A -> M S B) : M S B :=
  fun s =>
    match c s with
    | (Value a, s1, t1) =>
        let '(r, s2, t2) := k a s1 in
        (r, s2, t1 ++ t2)
    | (Killed, s1, t1) => (Killed, s1, t1)
    end.

Definition emit {S : Type} (a : action) : M S unit :=
  fun s => (Value tt, s, [a]).

Definition when {S : Type} (b : bool) (c : M S unit) : M S unit :=
  if b then c else ret tt.

Definition store {S A : Type} (r : result A * S * list action) : S :=
  snd (fst r).
Definition trace {S A : Type} (r : result A * S * list action)
  : list action := snd r.
Definition ending {S A : Type} (r : result A * S * list action)
  : result A := fst (fst r).

Declare Scope handler_scope.
Delimit Scope handler_scope with handler.

Notation "x <- c ;; k" := (bind c (fun x => k))
  (at level 61, c at next level, right associativity) : handler_scope.
Notation "c ;; k" := (bind c (fun _ => k))
  (at level 61, right associativity) : handler_scope.

End Handler.

(** ** StatsEndpoint *)

Module Metric.

Record t := Build { name_ : string; value_ : Z }.

Definition name (m : t) : string := name_ m.
Definition value (m : t) : Z := value_ m.

Definition incr (m : t) (n : Z) : Z * t :=
  let old := value_ m in
  (old, {| name_ := name_ m; value_ := Int.add (value_ m) n |}).

End Metric.

Module Vector.

Definition t := list Metric.t.

(** [std::find_if]: the position of the first element that satisfies
    [p], the length when there is none. *)
Fixpoint find_if (p : Metric.t -> bool) (v : t) : nat :=
  match v with
  | [] => 0
  | x :: rest => if p x then 0 else S (find_if p rest)
  end.

Fixpoint assign (i : nat) (x : Metric.t) (v : t) : t :=
  match v, i with
  | [], _ => []
  | _ :: rest, O => x :: rest
  | y :: rest, S j => y :: assign j x rest
  end.

End Vector.

Module StatsEndpoint.

Import Handler.
Local Open Scope handler_scope.

Section Handlers.

(** What a read through the past-the-end iterator finds: the language
    does not say, every statement below holds whatever it is. *)
Variable stray : Metric.t.

(** The lambda handed to [std::find_if] by both handlers. *)
Definition named (name : string) : Metric.t -> bool :=
  fun metric => String.eqb (Metric.name metric) name.

Definition find (p : Metric.t -> bool) : M Vector.t nat :=
  fun v => (Value (Vector.find_if p v), v, []).

Definition end_ : M Vector.t nat :=
  fun v => (Value (List.length v), v, []).

Definition push_back (m : Metric.t) : M Vector.t unit :=
  fun v => (Value tt, v ++ [m], []).

(** A member call on [*it]. Past the end the access is recorded. A
    vector that never held an element has no storage and its end is the
    null pointer: the access kills the process. A vector with storage is
    read past its last element, and the call runs on [stray]; nothing is
    written there by the calls made below. *)
Definition through {A : Type} (it : nat) (f : Metric.t -> A * Metric.t)
  : M Vector.t A :=
  fun v =>
    match nth_error v it with
    | Some m => let '(a, m') := f m in (Value a, Vector.assign it m' v, [])
    | None =>
        match v with
        | [] => (Killed, v, [OutOfRange it])
        | _ :: _ => (Value (fst (f stray)), v, [OutOfRange it])
        end
    end.

Definition doRecordMetric (request : Rest.Request) : M Vector.t unit :=
  let name := Rest.param request ":name" in
  it <- find (named name) ;;
  last <- end_ ;;
  if Nat.eqb it last then
    push_back (Metric.Build name 1) ;;
    emit (send_code Http.Created)
  else
    _ <- through it (fun metric => Metric.incr metric 1) ;;
    v <- through it (fun metric => (Metric.value metric, metric)) ;;
    emit (send_body Http.Ok (Int.to_string v)).

Definition doGetMetric (request : Rest.Request) : M Vector.t unit :=
  let name := Rest.param request ":name" in
  it <- find (named name) ;;
  last <- end_ ;;
  when (Nat.eqb it last) (emit (send_code Http.Not_Found)) ;;
  v <- through it (fun metric => (Metric.value metric, metric)) ;;
  emit (send_body Http.Ok (Int.to_string v)).

(** [n] calls of [doRecordMetric] for the same request, one after the
    other, each on the store the previous one left. *)
Fixpoint record_times (request : Rest.Request) (n : nat) (v : Vector.t)
  : Vector.t :=
  match n with
  | O => v
  | S k => record_times request k (store (doRecordMetric request v))
  end.

End Handlers.

(** The request the router builds for a path whose [:name] segment is
    [name]. *)
Definition for_name (name : string) : Rest.Request :=
  Rest.mkRequest (fun key => if String.eqb key ":name" then name else "").

Inductive Flag := InstallSignalHandler.

Record Options := mkOptions { threads : Z; flags : list Flag }.

Inductive handler := DoRecordMetric | DoGetMetric.

Record Ipv4 := mkIpv4 { a : Z; b : Z; c : Z; d : Z }.

Definition any : Ipv4 := mkIpv4 0 0 0 0.

Record Address := mkAddress { host : Ipv4; port : Z }.

Inductive setup :=
| Print (items : list cout_item)
| EndpointNew (addr : Address)
| EndpointInit (opts : Options)
| RoutePost (pattern : string) (h : handler)
| RouteGet (pattern : string) (h : handler)
| SetHandler
| Serve
| Shutdown.

Definition setupRoutes : list setup :=
  [ RoutePost "/record/:name" DoRecordMetric;
    RouteGet "/value/:name" DoGetMetric ].

Definition init : list setup :=
  let opts := {| threads := 1; flags := [InstallSignalHandler] |} in
  EndpointInit opts :: setupRoutes.

Definition start : list setup := [SetHandler; Serve].

Definition shutdown : list setup := [Shutdown].

End StatsEndpoint.

(** ** main *)

Module Main.

Import StatsEndpoint.

Inductive exception := invalid_argument | out_of_range.

Definition isspace (ch : ascii) : bool :=
  let n := nat_of_ascii ch in
  Nat.eqb n 32 || (Nat.leb 9 n && Nat.leb n 13).

Definition digit (ch : ascii) : option Z :=
  let n := Z.of_nat (nat_of_ascii ch) in
  if (48 <=? n)%Z && (n <=? 57)%Z then Some (n - 48)%Z else None.

Fixpoint skip_space (s : string) : string :=
  match s with
  | String ch rest => if isspace ch then skip_space rest else s
  | EmptyString => s
  end.

Fixpoint digits (acc : Z) (s : string) : Z :=
  match s with
  | String ch rest =>
      match digit ch with
      | Some v => digits (10 * acc + v)%Z rest
      | None => acc
      end
  | EmptyString => acc
  end.

Definition starts_with_digit (s : string) : bool :=
  match s with
  | String ch _ => match digit ch with Some _ => true | None => false end
  | EmptyString => false
  end.

(** [std::stol] in base 10: leading white space, an optional sign, the
    longest run of digits; the two exceptions of the standard. *)
Definition stol (s : string) : exception + Z :=
  let s := skip_space s in
  let '(negative, s) :=
    match s with
    | String "-" rest => (true, rest)
    | String "+" rest => (false, rest)
    | _ => (false, s)
    end in
  if starts_with_digit s then
    let v := digits 0 s in
    let v := if negative then (- v)%Z else v in
    if (Int.long_min <=? v)%Z && (v <=? Int.long_max)%Z then inr v
    else inl out_of_range
  else inl invalid_argument.

(** The command line as [main] reads it: [port] is a [Net::Port], built
    from a [uint16_t]; [thr] is an [int]. *)
Definition arguments (argv : list string) : exception + (Z * Z) :=
  let argc := List.length argv in
  let port := 9080%Z in
  let thr := 2%Z in
  if Nat.leb 2 argc then
    match stol (nth 1 argv "") with
    | inl e => inl e
    | inr p =>
        let port := Int.to_uint16 p in
        if Nat.eqb argc 3 then
          match stol (nth 2 argv "") with
          | inl e => inl e
          | inr n => inr (port, Int.wrap n)
          end
        else inr (port, thr)
    end
  else inr (port, thr).

(** Declared in [main] and used nowhere. *)
Definition Workers : Z := 4.

(** [main]; [cores] is what [hardware_concurrency] answers. An exception
    of [stol] is not caught and ends the process. *)
Definition main (cores : Z) (argv : list string) : exception + list setup :=
  match arguments argv with
  | inl e => inl e
  | inr (port, thr) =>
      let addr := mkAddress any port in
      inr ([ Print [Str "Cores = "; Int_ cores; Endl];
             Print [Str "Using "; Int_ thr; Str " threads"; Endl];
             EndpointNew addr ]
           ++ init
           ++ start
           ++ [ Print [Str "Shutdowning server"; Endl] ]
           ++ shutdown)
  end.

(** The address the endpoint is created with and the options it is
    initialised with, read back from what [main] did. *)
Fixpoint bound_address (l : list setup) : option Address :=
  match l with
  | [] => None
  | EndpointNew addr :: _ => Some addr
  | _ :: rest => bound_address rest
  end.

Fixpoint configured (l : list setup) : option Options :=
  match l with
  | [] => None
  | EndpointInit opts :: _ => Some opts
  | _ :: rest => configured rest
  end.

End Main.

(** ** The response writer and the timeout controller

    The handlers above only call into these two objects; their behaviour
    is the one laid down for the service (sections 4.3 and 4.4 of its
    description). *)

Module Engine.

(** Modelled from the spec: the life cycle of a response object. *)
Inductive ResponseState := Pending | Sending | Complete.

(** Modelled from the spec: the failure of a misused writer or
    controller. *)
Inductive error := UsageError.

(** Modelled from the spec: what a writer hands to the transport, a
    whole response or the pieces of a streamed one. *)
Inductive wire :=
| Full (code : Http.Code) (body : string)
| Head (code : Http.Code)
| Chunk (data : string)
| Last
| File (path : string).

(** Modelled from the spec: a response writer, its state and what it has
    handed to the transport so far. *)
Record Writer := mkWriter { state : ResponseState; sent : list wire }.

(** Modelled from the spec: the single-shot [send] of the response
    writer, Pending to Complete, a usage error once Complete. Also
    refused while a stream is open, which the description leaves open. *)
Definition send (w : Writer) (code : Http.Code) (body : string)
  : error + Writer :=
  match state w with
  | Pending => inr {| state := Complete; sent := sent w ++ [Full code body] |}
  | _ => inl UsageError
  end.

(** Modelled from the spec: [beginStream] of the response writer,
    Pending to Sending. *)
Definition beginStream (w : Writer) (code : Http.Code) : error + Writer :=
  match state w with
  | Pending => inr {| state := Sending; sent := sent w ++ [Head code] |}
  | _ => inl UsageError
  end.

(** Modelled from the spec: a write on the stream handle, legal only
    while Sending. *)
Definition write (w : Writer) (data : string) : error + Writer :=
  match state w with
  | Sending => inr {| state := Sending; sent := sent w ++ [Chunk data] |}
  | _ => inl UsageError
  end.

(** Modelled from the spec: [end] of the stream handle, Sending to
    Complete. *)
Definition finish (w : Writer) : error + Writer :=
  match state w with
  | Sending => inr {| state := Complete; sent := sent w ++ [Last] |}
  | _ => inl UsageError
  end.

(** Modelled from the spec: file serving is an external collaborator;
    it is taken to answer the request in one piece. *)
Definition serve (w : Writer) (path : string) : error + Writer :=
  match state w with
  | Pending => inr {| state := Complete; sent := sent w ++ [File path] |}
  | _ => inl UsageError
  end.

(** Modelled from the spec: the states of the timeout controller. *)
Inductive Timer :=
| Unarmed
| Armed (deadline : Z)
| Fired
| Cancelled.

(** Modelled from the spec: [arm] of the timeout controller, valid only
    from Unarmed; the deadline is now plus the duration. *)
Definition arm (now : Z) (duration : Z) (t : Timer) : error + Timer :=
  match t with
  | Unarmed => inr (Armed (now + duration)%Z)
  | _ => inl UsageError
  end.

(** Modelled from the spec: completion of the response cancels an armed
    timeout and does nothing otherwise. *)
Definition settle (w : Writer) (t : Timer) : Timer :=
  match state w, t with
  | Complete, Armed _ => Cancelled
  | _, _ => t
  end.

(** Modelled from the spec: what the dispatcher holds for one request,
    with the failures it has logged. *)
Record Exchange := mkExchange {
  writer : Writer;
  timer : Timer;
  diagnostics : list string
}.

(** Modelled from the spec: how the run of a handler ended. *)
Inductive outcome :=
| Done
| Misuse
| Raised (what : string).

(** Modelled from the spec: the effect of one action of a handler on the
    writer and on the controller of its request, at time [now]. *)
Definition perform (now : Z) (a : action) (x : Exchange) : error + Exchange :=
  let update (r : error + Writer) : error + Exchange :=
    match r with
    | inl e => inl e
    | inr w => inr {| writer := w; timer := settle w (timer x);
                      diagnostics := diagnostics x |}
    end in
  match a with
  | Arm secs =>
      match arm now secs (timer x) with
      | inl e => inl e
      | inr t => inr {| writer := writer x; timer := t;
                        diagnostics := diagnostics x |}
      end
  | Send code body _ => update (send (writer x) code body)
  | Stream code => update (beginStream (writer x) code)
  | StreamWrite data => update (write (writer x) data)
  | Ends => update (finish (writer x))
  | ServeFile path => update (serve (writer x) path)
  | Cout _ | AddHeader _ | OutOfRange _ | Throw _ => inr x
  end.

(** Modelled from the spec: the dispatcher runs the actions in order; a
    failure raised by the handler is caught and logged and leaves the
    request as it is, a misuse of the writer stops the handler. *)
Fixpoint perform_all (now : Z) (l : list action) (x : Exchange)
  : Exchange * outcome :=
  match l with
  | [] => (x, Done)
  | Throw what :: _ =>
      ({| writer := writer x; timer := timer x;
          diagnostics := diagnostics x ++ [what] |}, Raised what)
  | a :: rest =>
      match perform now a x with
      | inl _ => (x, Misuse)
      | inr x' => perform_all now rest x'
      end
  end.

(** Modelled from the spec: the exchange at the start of a dispatch. *)
Definition fresh : Exchange :=
  {| writer := {| state := Pending; sent := [] |};
     timer := Unarmed;
     diagnostics := [] |}.

(** Modelled from the spec: dispatch of a request to [MyHandler] at time
    [now], on a fresh writer and an unarmed controller. *)
Definition dispatch (now : Z) (req : Http.Request) : Exchange * outcome :=
  perform_all now (MyHandler.onRequest req) fresh.

(** Modelled from the spec: the timer looked at when the clock shows
    [now]. Armed, deadline reached, response not Complete: the
    controller fires and runs the timeout callback on the writer. In
    every other case nothing happens. *)
Definition elapse (now : Z) (req : Http.Request) (x : Exchange) : Exchange :=
  match timer x with
  | Armed deadline =>
      if (deadline <=? now)%Z then
        match state (writer x) with
        | Complete => x
        | _ =>
            fst (perform_all now (MyHandler.onTimeout req)
                   {| writer := writer x; timer := Fired;
                      diagnostics := diagnostics x |})
        end
      else x
  | _ => x
  end.

End Engine.

(** ** The stats service, call after call *)

Module Service.

Import Handler StatsEndpoint.

(** The member function [setupRoutes] binds to a route. *)
Definition callback (stray : Metric.t) (h : handler)
  : Rest.Request -> M Vector.t unit :=
  match h with
  | DoRecordMetric => doRecordMetric stray
  | DoGetMetric => doGetMetric stray
  end.

(** The store after the calls the router makes, one after the other,
    each on the store the previous one left; no call is made once the
    process has been killed. *)
Fixpoint serve_all (stray : Metric.t) (calls : list (handler * Rest.Request))
    (v : Vector.t) : Vector.t :=
  match calls with
  | [] => v
  | (h, request) :: rest =>
      match callback stray h request v with
      | (Value _, v', _) => serve_all stray rest v'
      | (Killed, v', _) => v'
      end
  end.

(** How many of the calls record [name]. *)
Fixpoint recorded (name : string) (calls : list (handler * Rest.Request))
  : nat :=
  match calls with
  | [] => 0
  | (DoRecordMetric, request) :: rest =>
      (if String.eqb (Rest.param request ":name") name then 1 else 0)
      + recorded name rest
  | (DoGetMetric, _) :: rest => recorded name rest
  end.

(** What the search and the dereference of the two handlers read for
    [name]: the value of the first metric of that name, if there is
    one. *)
Definition value_of (name : string) (v : Vector.t) : option Z :=
  option_map Metric.value (nth_error v (Vector.find_if (named name) v)).

End Service.

(** Actions that start the answer to a request, and the one that leaves
    the handler by an exception. *)
Definition is_answer (a : action) : bool :=
  match a with
  | Send _ _ _ | Stream _ | ServeFile _ => true
  | _ => false
  end.

Definition is_throw (a : action) : bool :=
  match a with Throw _ => true | _ => false end.

(** * Properties *)

(** ** Integers *)

Module IntFacts.

Lemma wrap_in_range (z : Z) :
  (Int.min <= z <= Int.max)%Z -> Int.wrap z = z.
Proof.
  unfold Int.wrap, Int.signed, Int.min, Int.max. intros Hz.
  change (2 ^ (32 - 1))%Z with 2147483648%Z.
  change (2 ^ 32)%Z with 4294967296%Z.
  rewrite Z.mod_small; lia.
Qed.

Lemma add_no_overflow (a b : Z) :
  (Int.min <= a + b <= Int.max)%Z -> Int.add a b = (a + b)%Z.
Proof. intros H. unfold Int.add. now apply wrap_in_range. Qed.

Lemma add_max_one : Int.add Int.max 1 = Int.min.
Proof. reflexivity. Qed.

End IntFacts.

(** ** The vector of metrics *)

Module VectorFacts.

Import Vector.

Lemma find_if_le (p : Metric.t -> bool) (v : t) :
  find_if p v <= List.length v.
Proof.
  induction v as [|x rest IH]; simpl; [lia|].
  destruct (p x); lia.
Qed.

Lemma find_if_none (p : Metric.t -> bool) (v : t) :
  (forall m, In m v -> p m = false) <-> find_if p v = List.length v.
Proof.
  induction v as [|x rest IH]; simpl.
  - split; [reflexivity | intros _ m []].
  - destruct (p x) eqn:Hx.
    + split; [|discriminate].
      intros H. rewrite (H x) in Hx by now left. discriminate.
    + split.
      * intros H. f_equal. apply IH. intros m Hm. apply H. now right.
      * intros H m [<-|Hm]; [assumption|].
        injection H as H. apply IH; assumption.
Qed.

Lemma find_if_end_nth (p : Metric.t -> bool) (v : t) :
  find_if p v = List.length v -> nth_error v (find_if p v) = None.
Proof. intros ->. apply nth_error_None. lia. Qed.

Lemma find_if_some (p : Metric.t -> bool) (v : t) (m : Metric.t) :
  nth_error v (find_if p v) = Some m ->
  p m = true /\ find_if p v < List.length v.
Proof.
  induction v as [|x rest IH]; simpl; [discriminate|].
  destruct (p x) eqn:Hx; simpl.
  - intros [= <-]. split; [assumption | lia].
  - intros H. destruct (IH H). split; [assumption | lia].
Qed.

Lemma find_if_lt (p : Metric.t -> bool) (v : t) :
  find_if p v <> List.length v ->
  exists m, nth_error v (find_if p v) = Some m.
Proof.
  intros H. destruct (nth_error v (find_if p v)) as [m|] eqn:E.
  - now exists m.
  - apply nth_error_None in E. pose proof (find_if_le p v). lia.
Qed.

Lemma assign_same (i : nat) (m : Metric.t) (v : t) :
  nth_error v i = Some m -> assign i m v = v.
Proof.
  revert i. induction v as [|x rest IH]; intros [|i]; simpl;
    try discriminate.
  - now intros [= ->].
  - intros H. f_equal. now apply IH.
Qed.

Lemma nth_error_assign (i : nat) (x : Metric.t) (v : t) :
  i < List.length v -> nth_error (assign i x v) i = Some x.
Proof.
  revert i. induction v as [|y rest IH]; intros [|i]; simpl; try lia.
  - reflexivity.
  - intros H. apply IH. lia.
Qed.

Lemma length_assign (i : nat) (x : Metric.t) (v : t) :
  List.length (assign i x v) = List.length v.
Proof.
  revert i. induction v as [|y rest IH]; intros [|i]; simpl; auto.
Qed.

(** Replacing the element found by one that still satisfies the
    predicate leaves it the first one found. *)
Lemma find_if_assign (p : Metric.t -> bool) (x m : Metric.t) (v : t) :
  nth_error v (find_if p v) = Some m -> p x = true ->
  find_if p (assign (find_if p v) x v) = find_if p v.
Proof.
  induction v as [|y rest IH]; simpl; [discriminate|].
  destruct (p y) eqn:Hy; simpl.
  - intros _ ->. reflexivity.
  - intros H Hx. rewrite Hy. f_equal. now apply IH.
Qed.

Lemma find_if_push_back (p : Metric.t -> bool) (x : Metric.t) (v : t) :
  find_if p v = List.length v -> p x = true ->
  find_if p (v ++ [x]) = List.length v.
Proof.
  induction v as [|y rest IH]; simpl.
  - intros _ ->. reflexivity.
  - destruct (p y); [discriminate|].
    intros [= H] Hx. f_equal. now apply IH.
Qed.

Lemma nth_error_push_back (x : Metric.t) (v : t) :
  nth_error (v ++ [x]) (List.length v) = Some x.
Proof.
  rewrite nth_error_app2 by lia. now rewrite Nat.sub_diag.
Qed.

Lemma assign_push_back (x y : Metric.t) (v : t) :
  assign (List.length v) y (v ++ [x]) = v ++ [y].
Proof. induction v as [|z rest IH]; simpl; [reflexivity | now f_equal]. Qed.

End VectorFacts.

(** ** The two route handlers, case by case *)

Module StatsFacts.

Import Handler StatsEndpoint.

Section Cases.

Variable stray : Metric.t.
Variable request : Rest.Request.

Local Abbreviation name := (Rest.param request ":name").

(** Opens a handler down to the primitives of the monad. *)
Ltac open_handler :=
  unfold doGetMetric, doRecordMetric, bind, find, end_, push_back, when,
    through, emit, ret;
  cbv beta zeta.

Lemma named_incr (m : Metric.t) (n : Z) :
  named name (snd (Metric.incr m n)) = named name m.
Proof. reflexivity. Qed.

Lemma doGetMetric_found (v : Vector.t) (m : Metric.t) :
  nth_error v (Vector.find_if (named name) v) = Some m ->
  doGetMetric stray request v =
    (Value tt, v, [send_body Http.Ok (Int.to_string (Metric.value m))]).
Proof.
  intros H. destruct (VectorFacts.find_if_some _ _ _ H) as [_ Hlt].
  open_handler.
  destruct (Nat.eqb_spec (Vector.find_if (named name) v) (List.length v));
    [lia|].
  cbv beta iota. rewrite H. cbn [app].
  now rewrite (VectorFacts.assign_same _ _ _ H).
Qed.

(** An absent name on a vector that has storage. *)
Lemma doGetMetric_absent (v : Vector.t) :
  v <> [] ->
  Vector.find_if (named name) v = List.length v ->
  doGetMetric stray request v =
    (Value tt, v, [ send_code Http.Not_Found;
                    OutOfRange (List.length v);
                    send_body Http.Ok (Int.to_string (Metric.value stray)) ]).
Proof.
  intros Hv H. pose proof (VectorFacts.find_if_end_nth _ _ H) as Hn.
  open_handler. rewrite H in *. rewrite Nat.eqb_refl.
  cbv beta iota. rewrite Hn.
  destruct v as [|x rest]; [contradiction | reflexivity].
Qed.

(** Any name on the vector that never held an element. *)
Lemma doGetMetric_empty :
  doGetMetric stray request [] =
    (Killed, [], [send_code Http.Not_Found; OutOfRange 0]).
Proof. reflexivity. Qed.

Lemma doRecordMetric_absent (v : Vector.t) :
  Vector.find_if (named name) v = List.length v ->
  doRecordMetric stray request v =
    (Value tt, v ++ [Metric.Build name 1], [send_code Http.Created]).
Proof.
  intros H.
  open_handler. rewrite H, Nat.eqb_refl. reflexivity.
Qed.

Lemma doRecordMetric_found (v : Vector.t) (m : Metric.t) :
  nth_error v (Vector.find_if (named name) v) = Some m ->
  doRecordMetric stray request v =
    (Value tt,
     Vector.assign (Vector.find_if (named name) v) (snd (Metric.incr m 1)) v,
     [send_body Http.Ok
        (Int.to_string (Metric.value (snd (Metric.incr m 1))))]).
Proof.
  intros H. destruct (VectorFacts.find_if_some _ _ _ H) as [_ Hlt].
  open_handler.
  destruct (Nat.eqb_spec (Vector.find_if (named name) v) (List.length v));
    [lia|].
  cbv beta iota. rewrite H. cbn [Metric.incr fst snd].
  rewrite VectorFacts.nth_error_assign by assumption.
  cbn [app]. do 2 f_equal.
  apply VectorFacts.assign_same.
  now apply VectorFacts.nth_error_assign.
Qed.

End Cases.

End StatsFacts.

(** ** Reading and recording a metric *)

Module MetricsClaims.

Import Handler StatsEndpoint.

Lemma absent_iff (n : string) (v : Vector.t) :
  (forall m, In m v -> Metric.name m <> n) <->
  Vector.find_if (named n) v = List.length v.
Proof.
  rewrite <- VectorFacts.find_if_none. unfold named.
  split; intros H m Hm; specialize (H m Hm).
  - now apply String.eqb_neq.
  - now apply String.eqb_neq.
Qed.

Lemma named_self (n : string) (z : Z) : named n (Metric.Build n z) = true.
Proof. unfold named, Metric.name. simpl. apply String.eqb_refl. Qed.

Lemma for_name_param (n : string) : Rest.param (for_name n) ":name" = n.
Proof. reflexivity. Qed.

(** C1, at inputs on which the code departs from it: [GET
    /value/unknown]. On a store that holds another metric the handler
    sends 404 and, not returning there, reads past the end of the vector
    and sends a second response, with status 200. On the store that
    never held a metric the same read kills the process once the 404 is
    sent. *)
Theorem doGetMetric_unknown_sends_twice (stray : Metric.t) :
  doGetMetric stray (for_name "unknown") [Metric.Build "requests" 3] =
    (Value tt, [Metric.Build "requests" 3],
     [ send_code Http.Not_Found;
       OutOfRange 1;
       send_body Http.Ok (Int.to_string (Metric.value stray)) ])
  /\ List.length
       (sends (trace (doGetMetric stray (for_name "unknown")
                        [Metric.Build "requests" 3]))) = 2
  /\ doGetMetric stray (for_name "unknown") [] =
       (Killed, [], [send_code Http.Not_Found; OutOfRange 0]).
Proof. repeat split. Qed.

(** The half of C1 that the code keeps: a recorded name is answered by
    exactly one response, 200 with the value in decimal. *)
Lemma doGetMetric_recorded (stray : Metric.t) (request : Rest.Request)
    (v : Vector.t) :
  Vector.find_if (named (Rest.param request ":name")) v <> List.length v ->
  exists m,
    nth_error v (Vector.find_if (named (Rest.param request ":name")) v) = Some m
    /\ Metric.name m = Rest.param request ":name"
    /\ trace (doGetMetric stray request v) =
         [send_body Http.Ok (Int.to_string (Metric.value m))]
    /\ store (doGetMetric stray request v) = v
    /\ Http.status Http.Ok = 200%Z.
Proof.
  intros H. destruct (VectorFacts.find_if_lt _ _ H) as [m Hm].
  exists m. rewrite (StatsFacts.doGetMetric_found stray request v m Hm).
  destruct (VectorFacts.find_if_some _ _ _ Hm) as [Hp _].
  apply String.eqb_eq in Hp. repeat split; assumption.
Qed.

(** C9, amended on the empty store: for a name absent from the store,
    doGetMetric does not stop at the 404 branch; it sends 404 and then
    dereferences the end of the vector, where there is no element. On a
    store that holds metrics the read goes on and [send] is called a
    second time, so that both the not-found send and the found send
    happen. On the store that never held a metric the dereference kills
    the process: the 404 is the only send. *)
Theorem doGetMetric_absent_falls_through (stray : Metric.t)
    (request : Rest.Request) (v : Vector.t) :
  (forall m, In m v -> Metric.name m <> Rest.param request ":name") ->
  Vector.find_if (named (Rest.param request ":name")) v = List.length v
  /\ nth_error v (List.length v) = None
  /\ hd_error (trace (doGetMetric stray request v)) =
       Some (send_code Http.Not_Found)
  /\ existsb is_out_of_range (trace (doGetMetric stray request v)) = true
  /\ (v <> [] ->
        doGetMetric stray request v =
          (Value tt, v,
           [ send_code Http.Not_Found;
             OutOfRange (List.length v);
             send_body Http.Ok (Int.to_string (Metric.value stray)) ])
        /\ sends (trace (doGetMetric stray request v)) =
             [ send_code Http.Not_Found;
               send_body Http.Ok (Int.to_string (Metric.value stray)) ])
  /\ (v = [] ->
        doGetMetric stray request v =
          (Killed, [], [send_code Http.Not_Found; OutOfRange 0])
        /\ sends (trace (doGetMetric stray request v)) =
             [send_code Http.Not_Found]).
Proof.
  intros H. apply absent_iff in H.
  split; [assumption|].
  split; [apply nth_error_None; lia|].
  destruct v as [|x rest].
  - rewrite StatsFacts.doGetMetric_empty.
    split; [reflexivity|]. split; [reflexivity|].
    split; [intros E; contradiction | intros _; split; reflexivity].
  - assert (Hne : x :: rest <> []) by discriminate.
    rewrite (StatsFacts.doGetMetric_absent stray request _ Hne H).
    split; [reflexivity|]. split; [reflexivity|].
    split; [intros _; split; reflexivity | intros E; discriminate E].
Qed.

Lemma doGetMetric_absent_falls_through_witness :
  sends (trace (doGetMetric (Metric.Build "" 0) (for_name "b")
                  [Metric.Build "a" 3])) =
    [ send_code Http.Not_Found; send_body Http.Ok "0" ]
  /\ sends (trace (doGetMetric (Metric.Build "" 0) (for_name "b") [])) =
       [ send_code Http.Not_Found ].
Proof.
  split.
  - destruct (doGetMetric_absent_falls_through
                (Metric.Build "" 0) (for_name "b") [Metric.Build "a" 3])
      as (_ & _ & _ & _ & Hfull & _).
    + intros m [<-|[]]. simpl. discriminate.
    + apply Hfull. discriminate.
  - destruct (doGetMetric_absent_falls_through
                (Metric.Build "" 0) (for_name "b") [])
      as (_ & _ & _ & _ & _ & Hempty).
    + intros m [].
    + now apply Hempty.
Defined.

(** C9 as it was stated fails on the store that never held a metric:
    the process is killed at the dereference, and no second send
    follows the 404. *)
Lemma doGetMetric_empty_store_is_killed :
  doGetMetric (Metric.Build "" 0) (for_name "unknown") [] =
    (Killed, [], [send_code Http.Not_Found; OutOfRange 0])
  /\ ~ (exists second,
          sends (trace (doGetMetric (Metric.Build "" 0) (for_name "unknown")
                          [])) =
            [send_code Http.Not_Found; second]).
Proof.
  split; [reflexivity|].
  intros [second H]. discriminate H.
Qed.

(** On a writer that completes once, the second send of the run on a
    store that holds metrics is a misuse. *)
Lemma doGetMetric_absent_misuse (stray : Metric.t) (request : Rest.Request)
    (v : Vector.t) (now : Z) :
  v <> [] ->
  Vector.find_if (named (Rest.param request ":name")) v = List.length v ->
  snd (Engine.perform_all now (trace (doGetMetric stray request v))
         Engine.fresh) = Engine.Misuse.
Proof.
  intros Hv H. rewrite (StatsFacts.doGetMetric_absent stray request v Hv H).
  reflexivity.
Qed.

(** C2, amended by the range of [int]: an unseen name is created with
    value 1 and answered 201; an existing one, below the largest [int],
    is incremented by exactly 1 and answered 200 with the new value in
    decimal, [incr] returning the value it found; a read after either
    call sees the value the call left. *)
Theorem doRecordMetric_creates_or_increments (stray : Metric.t)
    (request : Rest.Request) (v : Vector.t) :
  ((forall m, In m v -> Metric.name m <> Rest.param request ":name") ->
     doRecordMetric stray request v =
       (Value tt, v ++ [Metric.Build (Rest.param request ":name") 1],
        [send_code Http.Created])
     /\ Http.status Http.Created = 201%Z
     /\ trace (doGetMetric stray request
                 (store (doRecordMetric stray request v))) =
          [send_body Http.Ok "1"])
  /\
  (forall m,
     nth_error v (Vector.find_if (named (Rest.param request ":name")) v)
       = Some m ->
     (Int.min <= Metric.value m < Int.max)%Z ->
     fst (Metric.incr m 1) = Metric.value m
     /\ Metric.value (snd (Metric.incr m 1)) = (Metric.value m + 1)%Z
     /\ store (doRecordMetric stray request v) =
          Vector.assign
            (Vector.find_if (named (Rest.param request ":name")) v)
            (snd (Metric.incr m 1)) v
     /\ trace (doRecordMetric stray request v) =
          [send_body Http.Ok (Int.to_string (Metric.value m + 1))]
     /\ Http.status Http.Ok = 200%Z
     /\ trace (doGetMetric stray request
                 (store (doRecordMetric stray request v))) =
          [send_body Http.Ok (Int.to_string (Metric.value m + 1))]).
Proof.
  split.
  - intros H. apply absent_iff in H.
    rewrite (StatsFacts.doRecordMetric_absent stray request v H).
    repeat split.
    unfold store; cbn [fst snd].
    rewrite (StatsFacts.doGetMetric_found stray request _
               (Metric.Build (Rest.param request ":name") 1));
      [reflexivity|].
    rewrite VectorFacts.find_if_push_back
      by (try assumption; apply named_self).
    apply VectorFacts.nth_error_push_back.
  - intros m Hm Hrange.
    assert (Hv : Metric.value (snd (Metric.incr m 1)) = (Metric.value m + 1)%Z).
    { unfold Metric.incr, Metric.value. cbn [snd Metric.value_].
      apply IntFacts.add_no_overflow. unfold Metric.value in Hrange.
      unfold Int.min, Int.max in *. lia. }
    rewrite (StatsFacts.doRecordMetric_found stray request v m Hm).
    unfold store, trace; cbn [fst snd]. rewrite Hv.
    repeat split.
    destruct (VectorFacts.find_if_some _ _ _ Hm) as [Hp Hlt].
    rewrite (StatsFacts.doGetMetric_found stray request _
               (snd (Metric.incr m 1)));
      [unfold trace; cbn [snd]; rewrite Hv; reflexivity|].
    rewrite (VectorFacts.find_if_assign _ _ m) by assumption.
    now apply VectorFacts.nth_error_assign.
Qed.

Lemma doRecordMetric_creates_or_increments_witness :
  doRecordMetric (Metric.Build "" 0) (for_name "y") [Metric.Build "x" 4] =
    (Value tt, [Metric.Build "x" 4; Metric.Build "y" 1],
     [send_code Http.Created])
  /\ trace (doRecordMetric (Metric.Build "" 0) (for_name "x")
              [Metric.Build "x" 4]) = [send_body Http.Ok "5"].
Proof.
  split.
  - apply (doRecordMetric_creates_or_increments
             (Metric.Build "" 0) (for_name "y") [Metric.Build "x" 4]).
    intros m [<-|[]]. simpl. discriminate.
  - destruct (proj2 (doRecordMetric_creates_or_increments
                       (Metric.Build "" 0) (for_name "x")
                       [Metric.Build "x" 4])
                (Metric.Build "x" 4) eq_refl) as (_ & _ & _ & Ht & _).
    + unfold Int.min, Int.max. simpl. lia.
    + exact Ht.
Defined.

(** C2 as it was stated fails at the largest [int]: the stored value
    does not become 2147483648, and the body is not its decimal. *)
Lemma doRecordMetric_at_int_max :
  doRecordMetric (Metric.Build "" 0) (for_name "x")
    [Metric.Build "x" Int.max] =
    (Value tt, [Metric.Build "x" Int.min],
     [send_body Http.Ok "-2147483648"])
  /\ ~ (exists m,
          nth_error (store (doRecordMetric (Metric.Build "" 0) (for_name "x")
                              [Metric.Build "x" Int.max])) 0 = Some m
          /\ Metric.value m = (Int.max + 1)%Z).
Proof.
  split; [reflexivity|].
  intros [m [Hm Hv]]. vm_compute in Hm. injection Hm as <-.
  vm_compute in Hv. discriminate.
Qed.

End MetricsClaims.

(** ** Calls that follow one another *)

Module Sequential.

Import Handler StatsEndpoint.

Section OneName.

Variable stray : Metric.t.
Variable request : Rest.Request.
Variable v : Vector.t.

Local Abbreviation name := (Rest.param request ":name").

Hypothesis unseen : Vector.find_if (named name) v = List.length v.

Lemma record_existing (c : Z) :
  (Int.min <= c < Int.max)%Z ->
  store (doRecordMetric stray request (v ++ [Metric.Build name c])) =
    v ++ [Metric.Build name (c + 1)].
Proof.
  intros Hc.
  assert (Hf : Vector.find_if (named name) (v ++ [Metric.Build name c])
               = List.length v)
    by (apply VectorFacts.find_if_push_back;
        [exact unseen | apply MetricsClaims.named_self]).
  rewrite (StatsFacts.doRecordMetric_found stray request _
             (Metric.Build name c))
    by (rewrite Hf; apply VectorFacts.nth_error_push_back).
  unfold store; cbn [fst snd]. rewrite Hf.
  rewrite VectorFacts.assign_push_back.
  unfold Metric.incr; cbn [snd Metric.name_ Metric.value_].
  rewrite IntFacts.add_no_overflow; [reflexivity|].
  unfold Int.min, Int.max in *. lia.
Qed.

Lemma record_times_existing (k : nat) :
  forall c : Z,
    (Int.min <= c)%Z -> (c + Z.of_nat k <= Int.max)%Z ->
    record_times stray request k (v ++ [Metric.Build name c]) =
      v ++ [Metric.Build name (c + Z.of_nat k)].
Proof.
  induction k as [|k IH]; intros c Hlo Hhi.
  - cbn [record_times]. now rewrite Z.add_0_r.
  - cbn [record_times]. rewrite record_existing by lia.
    rewrite IH by lia. do 3 f_equal. lia.
Qed.

(** From a store that does not hold the name, [n] calls in a row leave
    the value [n], as long as [n] is an [int]. *)
Lemma record_times_unseen (n : Z) :
  (1 <= n <= Int.max)%Z ->
  record_times stray request (Z.to_nat n) v = v ++ [Metric.Build name n].
Proof.
  intros Hn.
  replace (Z.to_nat n) with (S (Z.to_nat (n - 1))) by lia.
  cbn [record_times].
  rewrite (StatsFacts.doRecordMetric_absent stray request v unseen).
  unfold store; cbn [fst snd].
  rewrite record_times_existing.
  - do 3 f_equal. lia.
  - unfold Int.min. lia.
  - lia.
Qed.

(** X6: on a store that does not hold the name, whatever else it holds,
    [n] calls of doRecordMetric in a row followed by a read answer 200
    with [n] in decimal, for [n] from 1 to the largest [int]. *)
Lemma records_then_get (n : Z) :
  (1 <= n <= Int.max)%Z ->
  trace (doGetMetric stray request
           (record_times stray request (Z.to_nat n) v)) =
    [send_body Http.Ok (Int.to_string n)].
Proof.
  intros Hn. rewrite record_times_unseen by assumption.
  rewrite (StatsFacts.doGetMetric_found stray request _ (Metric.Build name n)).
  - reflexivity.
  - rewrite VectorFacts.find_if_push_back
      by (try exact unseen; apply MetricsClaims.named_self).
    apply VectorFacts.nth_error_push_back.
Qed.

End OneName.

(** The store on which recording overflows is one the server reaches:
    2147483647 calls for one name. *)
Lemma int_max_reached (stray : Metric.t) :
  record_times stray (for_name "x") (Z.to_nat Int.max) [] =
    [Metric.Build "x" Int.max].
Proof.
  apply (record_times_unseen stray (for_name "x") [] eq_refl Int.max).
  unfold Int.max. lia.
Qed.

End Sequential.

(** ** MyHandler on /ping *)

Module PingClaims.

Import Http MyHandler.

Lemma Method_eqb_eq (a b : Method) : Method_eqb a b = true <-> a = b.
Proof. destruct a, b; simpl; split; intros H; congruence. Qed.

Lemma Method_eqb_neq (a b : Method) : Method_eqb a b = false <-> a <> b.
Proof. destruct a, b; simpl; split; intros H; congruence. Qed.

(** C5: a GET on /ping whose query has the flag [chunked] arms a timeout
    of 2 seconds, sets the content type to text/plain, opens a stream
    with status 200 and writes the chunk PO, then the chunk NG, then the
    end of the stream: two writes, whose concatenation is PONG. *)
Theorem ping_chunked (req : Request) :
  resource req = "/ping" ->
  method req = Get ->
  has (query req) "chunked" = true ->
  onRequest req =
    [ Arm 2;
      Cout [Str "Using chunked encoding"; Endl];
      AddHeader (Server "lys");
      AddHeader (ContentType (MIME Text Plain));
      Stream Ok;
      StreamWrite "PO";
      StreamWrite "NG";
      Ends ]
  /\ status Ok = 200%Z
  /\ streamed (onRequest req) = "PONG"
  /\ 2 <= List.length (filter is_write (onRequest req))
  /\ sends (onRequest req) = [].
Proof.
  intros Hres Hget Hq. unfold onRequest.
  rewrite Hres, Hget, Hq. cbn. repeat split. lia.
Qed.

Lemma ping_chunked_witness :
  streamed (onRequest (mkRequest Get "/ping" [("chunked", "1")] "")) = "PONG".
Proof.
  apply (ping_chunked (mkRequest Get "/ping" [("chunked", "1")] ""));
    reflexivity.
Defined.

(** C10: on a GET to /ping the timeout of 2 seconds is armed first,
    whatever the query holds, and without the flag [chunked] nothing
    else is done: no response is produced. With any other method the
    handler does nothing at all on /ping. *)
Theorem ping_arms_before_query (req : Request) :
  resource req = "/ping" ->
  (method req = Get ->
     (exists rest, onRequest req = Arm 2 :: rest)
     /\ (has (query req) "chunked" = false ->
           onRequest req = [Arm 2]
           /\ existsb is_response (onRequest req) = false))
  /\ (method req <> Get ->
        onRequest req = []
        /\ existsb is_arm (onRequest req) = false
        /\ existsb is_response (onRequest req) = false).
Proof.
  intros Hres. unfold onRequest. rewrite Hres. cbn. split.
  - intros ->. cbn. split.
    + eexists. reflexivity.
    + intros ->. split; reflexivity.
  - intros Hm. apply Method_eqb_neq in Hm. rewrite Hm.
    repeat split.
Qed.

Lemma ping_arms_before_query_witness :
  onRequest (mkRequest Get "/ping" [] "") = [Arm 2]
  /\ onRequest (mkRequest Post "/ping" [("chunked", "")] "") = [].
Proof.
  split.
  - apply (ping_arms_before_query (mkRequest Get "/ping" [] ""));
      reflexivity.
  - apply (ping_arms_before_query
             (mkRequest Post "/ping" [("chunked", "")] ""));
      [reflexivity | discriminate].
Defined.

(** On the writer and the controller of the request, the chunked answer
    is a head with status 200, the two chunks and the end; the response
    is Complete and the timeout cancelled. *)
Lemma ping_chunked_exchange (now : Z) (req : Request) :
  resource req = "/ping" -> method req = Get ->
  has (query req) "chunked" = true ->
  Engine.dispatch now req =
    ({| Engine.writer :=
          {| Engine.state := Engine.Complete;
             Engine.sent := [ Engine.Head Ok; Engine.Chunk "PO";
                              Engine.Chunk "NG"; Engine.Last ] |};
        Engine.timer := Engine.Cancelled;
        Engine.diagnostics := [] |}, Engine.Done).
Proof.
  intros Hres Hget Hq. unfold Engine.dispatch, onRequest.
  rewrite Hres, Hget, Hq. reflexivity.
Qed.

End PingClaims.

(** ** The timeout fallback *)

Module TimeoutClaims.

Import Http Engine.

(** A step that leaves the writer Pending has not touched it. *)
Lemma perform_pending (now : Z) (a : action) (x x' : Exchange) :
  perform now a x = inr x' ->
  state (writer x') = Pending ->
  writer x' = writer x.
Proof.
  destruct x as [[st out] tm dg].
  destruct a; cbn; unfold arm, send, beginStream, write, finish, serve; cbn;
    destruct st; try destruct tm; cbn; intros [= <-]; cbn;
    try reflexivity; discriminate.
Qed.

Lemma perform_all_pending (now : Z) (l : list action) :
  forall x : Exchange,
    state (writer (fst (perform_all now l x))) = Pending ->
    writer (fst (perform_all now l x)) = writer x.
Proof.
  induction l as [|a rest IH]; intros x H; [reflexivity|].
  destruct a; cbn [perform_all] in *;
    try (destruct (perform now _ x) as [e|x'] eqn:E; cbn [fst] in *;
         [reflexivity|];
         rewrite (IH x' H); apply (perform_pending _ _ _ _ E);
         rewrite <- (IH x' H); exact H).
  reflexivity.
Qed.

Lemma dispatch_pending (now : Z) (req : Request) :
  state (writer (fst (dispatch now req))) = Pending ->
  sent (writer (fst (dispatch now req))) = [].
Proof.
  intros H. unfold dispatch in *.
  now rewrite (perform_all_pending _ _ _ H).
Qed.

(** No handler leaves its response half way through a stream. *)
Lemma dispatch_not_sending (now : Z) (req : Request) :
  state (writer (fst (dispatch now req))) <> Sending.
Proof.
  unfold dispatch, MyHandler.onRequest.
  destruct (resource req =? "/ping")%string;
    [destruct (Method_eqb (method req) Get);
       [destruct (has (query req) "chunked")|]|];
    try (cbn; discriminate).
  destruct (resource req =? "/echo")%string;
    [destruct (Method_eqb (method req) Post); cbn; discriminate|].
  destruct (resource req =? "/exception")%string; [cbn; discriminate|].
  destruct (resource req =? "/timeout")%string; [cbn; discriminate|].
  destruct (resource req =? "/static")%string;
    [destruct (Method_eqb (method req) Get)|]; cbn; discriminate.
Qed.

(** The firing step on any exchange that is armed and still Pending. *)
Lemma elapse_fires (now : Z) (req : Request) (x : Exchange) (deadline : Z) :
  timer x = Armed deadline ->
  state (writer x) = Pending ->
  (deadline <= now)%Z ->
  elapse now req x =
    {| writer := {| state := Complete;
                    sent := sent (writer x) ++ [Full Request_Timeout "Timeout"] |};
       timer := Fired;
       diagnostics := diagnostics x |}.
Proof.
  intros Ht Hs Hd. unfold elapse. rewrite Ht, Hs.
  apply Z.leb_le in Hd. rewrite Hd.
  cbn. unfold send. cbn. rewrite Hs. reflexivity.
Qed.

Lemma elapse_early (now : Z) (req : Request) (x : Exchange) (deadline : Z) :
  timer x = Armed deadline ->
  (now < deadline)%Z ->
  elapse now req x = x.
Proof.
  intros Ht Hd. unfold elapse. rewrite Ht.
  apply Z.leb_gt in Hd. now rewrite Hd.
Qed.

(** C4, amended in the body of the fallback: when the handler of a
    request has armed a timeout and has produced no response, nothing is
    sent before the deadline; once the deadline is reached exactly one
    response is sent, with status 408 and the body Timeout; the writer
    is then Complete, so that any later send is a usage error, and the
    controller, Fired, produces nothing more. *)
Theorem timeout_fallback (start : Z) (req : Request) (deadline : Z) :
  timer (fst (dispatch start req)) = Armed deadline ->
  state (writer (fst (dispatch start req))) = Pending ->
  (forall now, (now < deadline)%Z ->
     sent (writer (elapse now req (fst (dispatch start req)))) = [])
  /\
  (forall now, (deadline <= now)%Z ->
     sent (writer (elapse now req (fst (dispatch start req)))) =
       [Full Request_Timeout "Timeout"]
     /\ status Request_Timeout = 408%Z
     /\ timer (elapse now req (fst (dispatch start req))) = Fired
     /\ state (writer (elapse now req (fst (dispatch start req)))) = Complete
     /\ (forall code body,
           send (writer (elapse now req (fst (dispatch start req))))
             code body = inl UsageError)
     /\ (forall later,
           elapse later req (elapse now req (fst (dispatch start req))) =
           elapse now req (fst (dispatch start req)))).
Proof.
  intros Ht Hs. pose proof (dispatch_pending start req Hs) as Hnone.
  split.
  - intros now Hnow. now rewrite (elapse_early _ _ _ _ Ht Hnow).
  - intros now Hnow.
    rewrite (elapse_fires _ _ _ _ Ht Hs Hnow), Hnone.
    repeat split.
Qed.

Lemma timeout_fallback_witness :
  sent (writer (elapse 5 (mkRequest Get "/timeout" [] "")
                  (fst (dispatch 0 (mkRequest Get "/timeout" [] ""))))) =
    [Full Request_Timeout "Timeout"].
Proof.
  apply (proj2 (timeout_fallback 0 (mkRequest Get "/timeout" [] "") 5
                  eq_refl eq_refl) 5%Z).
  lia.
Defined.

(** C4 as it was stated fails on /timeout: the body of the fallback is
    not the text Request Timeout. *)
Lemma timeout_body_differs :
  sent (writer (elapse 5 (mkRequest Get "/timeout" [] "")
                  (fst (dispatch 0 (mkRequest Get "/timeout" [] ""))))) <>
    [Full Request_Timeout "Request Timeout"].
Proof. vm_compute. discriminate. Qed.

(** The requests whose handler arms a timeout and answers nothing. *)
Lemma armed_and_pending (start : Z) (req : Request) (deadline : Z) :
  timer (fst (dispatch start req)) = Armed deadline /\
  state (writer (fst (dispatch start req))) = Pending <->
  (resource req = "/timeout" /\ deadline = (start + 5)%Z) \/
  (resource req = "/ping" /\ method req = Get /\
   has (query req) "chunked" = false /\ deadline = (start + 2)%Z).
Proof.
  unfold dispatch, MyHandler.onRequest.
  destruct (String.eqb_spec (resource req) "/ping") as [Hp|Hp].
  - destruct (Method_eqb (method req) Get) eqn:Hm.
    + apply PingClaims.Method_eqb_eq in Hm.
      destruct (has (query req) "chunked") eqn:Hq; cbn.
      * split; [intros [[=] _] | intros [[H _]|(_ & _ & [=] & _)]].
        rewrite Hp in H. discriminate.
      * split.
        -- intros [[= <-] _]. right. auto.
        -- intros [[H _]|(_ & _ & _ & ->)]; [|auto].
           rewrite Hp in H. discriminate.
    + apply PingClaims.Method_eqb_neq in Hm. cbn.
      split; [intros [[=] _] | intros [[H _]|(_ & H & _)]];
        [rewrite Hp in H; discriminate | contradiction].
  - destruct (String.eqb_spec (resource req) "/echo") as [He|He].
    + destruct (Method_eqb (method req) Post); cbn;
        (split; [intros [[=] _] | intros [[H _]|(H & _)]];
         [rewrite He in H; discriminate | contradiction]).
    + destruct (String.eqb_spec (resource req) "/exception") as [Hx|Hx].
      * cbn. split; [intros [[=] _] | intros [[H _]|(H & _)]];
          [rewrite Hx in H; discriminate | contradiction].
      * destruct (String.eqb_spec (resource req) "/timeout") as [Ht|Ht].
        -- cbn. split.
           ++ intros [[= <-] _]. left. auto.
           ++ intros [[_ ->]|(H & _)]; [auto | contradiction].
        -- destruct (String.eqb_spec (resource req) "/static") as [Hs|Hs];
             [destruct (Method_eqb (method req) Get)|]; cbn;
             (split; [intros [[=] _] | intros [[H _]|(H & _)]];
              contradiction).
Qed.

End TimeoutClaims.

(** ** The load monitor: what is printed *)

Module LoadClaims.

Import LoadMonitor.

Lemma one_bits : one = S754_finite false 4503599627370496 (-52).
Proof. reflexivity. Qed.

Lemma hundred_bits : hundred = S754_finite false 7036874417766400 (-46).
Proof. reflexivity. Qed.

(** Swapping the sides of a comparison swaps its answer. *)
Lemma SFcompare_swap (x y : double) :
  SFcompare y x = option_map CompOpp (SFcompare x y).
Proof.
  destruct x as [sx|sx| |sx mx ex], y as [sy|sy| |sy my ey]; cbn;
    try reflexivity;
    try (destruct sx; reflexivity);
    try (destruct sy; reflexivity);
    try (destruct sx, sy; reflexivity).
  destruct sx, sy; try reflexivity;
    rewrite (Z.compare_antisym ex ey);
    destruct (ex ?= ey)%Z; cbn; try reflexivity;
    rewrite (Pos.compare_cont_antisym mx my Eq); reflexivity.
Qed.

Lemma le_not_gt (x y : double) : le x y = true -> gt x y = false.
Proof.
  unfold le, gt, SFleb, SFltb. rewrite (SFcompare_swap x y).
  destruct (SFcompare x y) as [[| |]|]; cbn; congruence.
Qed.

Lemma gt_not_le (x y : double) : gt x y = true -> le x y = false.
Proof.
  intros H. destruct (le x y) eqn:E; [|reflexivity].
  apply le_not_gt in E. congruence.
Qed.

(** Below or at 1 is not above 100. *)
Lemma le_one_not_gt_hundred (g : double) :
  le g one = true -> gt g hundred = false.
Proof.
  unfold le, gt, SFleb, SFltb. rewrite one_bits, hundred_bits.
  destruct g as [s|s| |s m e].
  - reflexivity.
  - destruct s; cbn; congruence.
  - cbn. discriminate.
  - destruct s; [reflexivity|].
    cbv beta iota delta [SFcompare].
    destruct (e ?= -52)%Z eqn:E1.
    + apply Z.compare_eq in E1. subst e. intros _. reflexivity.
    + rewrite Z.compare_lt_iff in E1. intros _.
      destruct (-46 ?= e)%Z eqn:E2; try reflexivity.
      * apply Z.compare_eq in E2. lia.
      * rewrite Z.compare_lt_iff in E2. lia.
    + intros H. discriminate H.
Qed.

Lemma hundred_gt_one : gt hundred one = true.
Proof. reflexivity. Qed.

(** C7: the percentage printed for a snapshot whose load is [g]. At or
    below 1 the line reads 0%, whatever the small value is; above 1 and
    up to 100 the value itself is printed; above 100 it is 100 that is
    printed. *)
Theorem report_clamps (load : Load) :
  (le (global load) one = true ->
     snd (onLoad load) = [Log [Str "Global load is 0%"; Endl]])
  /\ (gt (global load) one = true -> le (global load) hundred = true ->
        snd (onLoad load) =
          [Log [Str "Global load is "; Dbl (global load); Str "%"; Endl]])
  /\ (gt (global load) hundred = true ->
        snd (onLoad load) =
          [Log [Str "Global load is "; Dbl hundred; Str "%"; Endl]]).
Proof.
  unfold onLoad, report. cbn [snd]. repeat split.
  - intros H. rewrite (le_one_not_gt_hundred _ H), (le_not_gt _ _ H).
    reflexivity.
  - intros H1 H100. rewrite (le_not_gt _ _ H100), H1. reflexivity.
  - intros H. rewrite H, hundred_gt_one. reflexivity.
Qed.

Lemma report_clamps_witness :
  snd (onLoad (mkLoad (S754_finite false 4503599627370496 (-53)))) =
    [Log [Str "Global load is 0%"; Endl]]
  /\ snd (onLoad (mkLoad (of_int 50))) =
       [Log [Str "Global load is "; Dbl (of_int 50); Str "%"; Endl]]
  /\ snd (onLoad (mkLoad (of_int 200))) =
       [Log [Str "Global load is "; Dbl hundred; Str "%"; Endl]].
Proof.
  split; [|split].
  - apply (report_clamps (mkLoad (S754_finite false 4503599627370496 (-53)))).
    reflexivity.
  - apply (report_clamps (mkLoad (of_int 50))); reflexivity.
  - apply (report_clamps (mkLoad (of_int 200))). reflexivity.
Defined.

(** A NaN is neither: the line reads 0%. *)
Lemma report_nan :
  report (mkLoad S754_nan) = [Str "Global load is 0%"; Endl].
Proof. reflexivity. Qed.

End LoadClaims.

(** ** The load monitor: the loop *)

Module LoopClaims.

Import LoadMonitor.









End LoopClaims.

(** ** The command line *)

Module MainClaims.

Import StatsEndpoint Main.

(** Whatever the command line, the endpoint is initialised with one
    thread and bound to the wildcard address. *)
Lemma main_one_thread (cores : Z) (argv : list string) (l : list setup) :
  main cores argv = inr l ->
  configured l = Some {| threads := 1; flags := [InstallSignalHandler] |}
  /\ exists port thr,
       arguments argv = inr (port, thr)
       /\ bound_address l = Some (mkAddress any port)
       /\ In (Print [Str "Using "; Int_ thr; Str " threads"; Endl]) l.
Proof.
  unfold main. destruct (arguments argv) as [e|[port thr]]; [discriminate|].
  intros [= <-]. split; [reflexivity|].
  exists port, thr. repeat split. cbn. auto.
Qed.

Lemma arguments_default (prog : string) : arguments [prog] = inr (9080, 2)%Z.
Proof. reflexivity. Qed.

Lemma arguments_port_only (prog first : string) (p : Z) :
  stol first = inr p ->
  arguments [prog; first] = inr (Int.to_uint16 p, 2%Z).
Proof. intros H. unfold arguments. cbn. now rewrite H. Qed.

Lemma arguments_both (prog first second : string) (p n : Z) :
  stol first = inr p -> stol second = inr n ->
  arguments [prog; first; second] = inr (Int.to_uint16 p, Int.wrap n).
Proof. intros H1 H2. unfold arguments. cbn. now rewrite H1, H2. Qed.

(** With more than two arguments the second is not read. *)
Lemma arguments_more (prog first second third : string) (rest : list string)
    (p : Z) :
  stol first = inr p ->
  arguments (prog :: first :: second :: third :: rest) =
    inr (Int.to_uint16 p, 2%Z).
Proof. intros H. unfold arguments. cbn. now rewrite H. Qed.

(** C6, at the input on which the code departs from it: started with
    port 9080 and 8 threads, [main] announces 8 threads and binds the
    wildcard address on port 9080, but initialises the endpoint with 1
    thread. *)
Theorem main_thread_count_unused (cores : Z) :
  main cores ["main"; "9080"; "8"] =
    inr [ Print [Str "Cores = "; Int_ cores; Endl];
          Print [Str "Using "; Int_ 8; Str " threads"; Endl];
          EndpointNew (mkAddress any 9080);
          EndpointInit {| threads := 1; flags := [InstallSignalHandler] |};
          RoutePost "/record/:name" DoRecordMetric;
          RouteGet "/value/:name" DoGetMetric;
          SetHandler;
          Serve;
          Print [Str "Shutdowning server"; Endl];
          Shutdown ].
Proof. reflexivity. Qed.

End MainClaims.

(** ** The store under the two handlers *)

Module StoreLaws.

Import Handler StatsEndpoint Service.

Lemma find_if_app (p : Metric.t -> bool) (v w : Vector.t) :
  Vector.find_if p (v ++ w) =
    if Nat.eqb (Vector.find_if p v) (List.length v)
    then List.length v + Vector.find_if p w
    else Vector.find_if p v.
Proof.
  induction v as [|x rest IH]; cbn [app Vector.find_if List.length].
  - reflexivity.
  - destruct (p x); [reflexivity|]. rewrite IH. cbn [Nat.eqb].
    destruct (Nat.eqb _ _); reflexivity.
Qed.

Lemma find_if_assign_alike (p : Metric.t -> bool) (i : nat)
    (m m' : Metric.t) (v : Vector.t) :
  nth_error v i = Some m -> p m' = p m ->
  Vector.find_if p (Vector.assign i m' v) = Vector.find_if p v.
Proof.
  revert i. induction v as [|x rest IH]; intros [|i]; cbn; try discriminate.
  - intros [= ->] ->. reflexivity.
  - intros Hm Hp. destruct (p x); [reflexivity|]. f_equal. now apply IH.
Qed.

Lemma nth_error_assign_other (i j : nat) (x : Metric.t) (v : Vector.t) :
  i <> j -> nth_error (Vector.assign i x v) j = nth_error v j.
Proof.
  revert i j. induction v as [|y rest IH]; intros [|i] [|j] H; cbn;
    try reflexivity; try contradiction.
  apply IH. congruence.
Qed.

Lemma names_assign (i : nat) (m m' : Metric.t) (v : Vector.t) :
  nth_error v i = Some m -> Metric.name m' = Metric.name m ->
  map Metric.name (Vector.assign i m' v) = map Metric.name v.
Proof.
  revert i. induction v as [|x rest IH]; intros [|i]; cbn; try discriminate.
  - intros [= ->] ->. reflexivity.
  - intros Hm Hn. f_equal. now apply IH.
Qed.

Lemma value_of_none (n : string) (v : Vector.t) :
  value_of n v = None <-> Vector.find_if (named n) v = List.length v.
Proof.
  unfold value_of. split.
  - intros H. destruct (Nat.eq_dec (Vector.find_if (named n) v) (List.length v))
      as [E|E]; [assumption|].
    destruct (VectorFacts.find_if_lt _ _ E) as [m Hm].
    rewrite Hm in H. discriminate.
  - intros H. now rewrite (VectorFacts.find_if_end_nth _ _ H).
Qed.

Lemma value_of_push_back (n : string) (x : Metric.t) (v : Vector.t) :
  value_of n (v ++ [x]) =
    match value_of n v with
    | Some z => Some z
    | None => if named n x then Some (Metric.value x) else None
    end.
Proof.
  destruct (value_of n v) as [z|] eqn:E.
  - unfold value_of in *. rewrite find_if_app.
    destruct (nth_error v (Vector.find_if (named n) v)) as [m|] eqn:Hm;
      [|discriminate].
    destruct (VectorFacts.find_if_some _ _ _ Hm) as [_ Hlt].
    destruct (Nat.eqb_spec (Vector.find_if (named n) v) (List.length v));
      [lia|].
    rewrite nth_error_app1 by assumption. now rewrite Hm.
  - apply value_of_none in E. unfold value_of. rewrite find_if_app, E.
    rewrite Nat.eqb_refl. cbn [Vector.find_if].
    destruct (named n x).
    + rewrite Nat.add_0_r, VectorFacts.nth_error_push_back. reflexivity.
    + replace (nth_error (v ++ [x]) (List.length v + 1)) with (@None Metric.t);
        [reflexivity|].
      symmetry. apply nth_error_None. rewrite length_app. cbn. lia.
Qed.

Lemma named_eqb (n : string) (m : Metric.t) :
  named n m = String.eqb (Metric.name m) n.
Proof. reflexivity. Qed.

(** What a call of doRecordMetric does to the value read for any name. *)
Lemma value_of_record (stray : Metric.t) (request : Rest.Request)
    (n : string) (v : Vector.t) :
  value_of n (store (doRecordMetric stray request v)) =
    if String.eqb (Rest.param request ":name") n then
      Some (match value_of n v with
            | Some z => Int.add z 1
            | None => 1%Z
            end)
    else value_of n v.
Proof.
  set (name := Rest.param request ":name").
  destruct (nth_error v (Vector.find_if (named name) v)) as [m|] eqn:Hm.
  - rewrite (StatsFacts.doRecordMetric_found stray request v m Hm).
    unfold store; cbn [fst snd]. fold name.
    destruct (VectorFacts.find_if_some _ _ _ Hm) as [Hp Hlt].
    unfold value_of.
    rewrite (find_if_assign_alike (named n) _ m) by (assumption || reflexivity).
    destruct (String.eqb_spec name n) as [<-|Hne].
    + rewrite VectorFacts.nth_error_assign by assumption.
      rewrite Hm. reflexivity.
    + rewrite nth_error_assign_other; [reflexivity|].
      intros E.
      destruct (VectorFacts.find_if_some (named n) v m) as [Hq _].
      { now rewrite <- E. }
      rewrite named_eqb in Hp, Hq.
      apply String.eqb_eq in Hp, Hq. congruence.
  - assert (Ha : Vector.find_if (named name) v = List.length v).
    { apply value_of_none. unfold value_of. now rewrite Hm. }
    rewrite (StatsFacts.doRecordMetric_absent stray request v Ha).
    unfold store; cbn [fst snd]. fold name.
    rewrite value_of_push_back. rewrite named_eqb. cbn [Metric.name Metric.name_].
    destruct (String.eqb_spec name n) as [<-|Hne].
    + replace (value_of name v) with (@None Z); [reflexivity|].
      symmetry. now apply value_of_none.
    + destruct (value_of n v); reflexivity.
Qed.

(** A read answers with the value read for its name. *)
Lemma get_reports (stray : Metric.t) (request : Rest.Request)
    (v : Vector.t) (z : Z) :
  value_of (Rest.param request ":name") v = Some z ->
  doGetMetric stray request v =
    (Value tt, v, [send_body Http.Ok (Int.to_string z)]).
Proof.
  unfold value_of. intros H.
  destruct (nth_error v _) as [m|] eqn:Hm; [|discriminate].
  injection H as <-. now apply StatsFacts.doGetMetric_found.
Qed.

End StoreLaws.

(** ** What the stats service guarantees over a sequence of calls *)

Module ServiceLaws.

Import Handler StatsEndpoint Service.

Lemma get_store (stray : Metric.t) (request : Rest.Request) (v : Vector.t) :
  store (doGetMetric stray request v) = v.
Proof.
  destruct (value_of (Rest.param request ":name") v) as [z|] eqn:E.
  - now rewrite (StoreLaws.get_reports stray request v z E).
  - apply StoreLaws.value_of_none in E. destruct v as [|x rest].
    + now rewrite StatsFacts.doGetMetric_empty.
    + rewrite (StatsFacts.doGetMetric_absent stray request (x :: rest));
        [reflexivity | discriminate | assumption].
Qed.

(** On a store that holds metrics a read is never the end of the
    process. *)
Lemma get_sends (stray : Metric.t) (request : Rest.Request) (v : Vector.t) :
  v <> [] ->
  ending (doGetMetric stray request v) = Value tt
  /\ sends (trace (doGetMetric stray request v)) =
       match value_of (Rest.param request ":name") v with
       | Some z => [send_body Http.Ok (Int.to_string z)]
       | None => [ send_code Http.Not_Found;
                   send_body Http.Ok (Int.to_string (Metric.value stray)) ]
       end.
Proof.
  intros Hv.
  destruct (value_of (Rest.param request ":name") v) as [z|] eqn:E.
  - now rewrite (StoreLaws.get_reports stray request v z E).
  - apply StoreLaws.value_of_none in E.
    now rewrite (StatsFacts.doGetMetric_absent stray request v Hv E).
Qed.

Lemma record_value (stray : Metric.t) (request : Rest.Request)
    (v : Vector.t) :
  ending (doRecordMetric stray request v) = Value tt
  /\ store (doRecordMetric stray request v) <> [].
Proof.
  destruct (nth_error v (Vector.find_if (named (Rest.param request ":name")) v))
    as [m|] eqn:Hm.
  - rewrite (StatsFacts.doRecordMetric_found stray request v m Hm).
    split; [reflexivity|]. unfold store; cbn [fst snd].
    intros E. apply (f_equal (@List.length _)) in E.
    rewrite VectorFacts.length_assign in E.
    destruct (VectorFacts.find_if_some _ _ _ Hm) as [_ Hlt].
    cbn in E. lia.
  - assert (Ha : Vector.find_if (named (Rest.param request ":name")) v
                 = List.length v).
    { apply StoreLaws.value_of_none. unfold value_of. now rewrite Hm. }
    rewrite (StatsFacts.doRecordMetric_absent stray request v Ha).
    split; [reflexivity|]. unfold store; cbn [fst snd].
    intros E. now apply app_eq_nil in E.
Qed.

Lemma record_keeps_distinct (stray : Metric.t) (request : Rest.Request)
    (v : Vector.t) :
  NoDup (map Metric.name v) ->
  NoDup (map Metric.name (store (doRecordMetric stray request v))).
Proof.
  intros Hv.
  destruct (nth_error v (Vector.find_if (named (Rest.param request ":name")) v))
    as [m|] eqn:Hm.
  - rewrite (StatsFacts.doRecordMetric_found stray request v m Hm).
    unfold store; cbn [fst snd].
    now rewrite (StoreLaws.names_assign _ m) by (assumption || reflexivity).
  - assert (Ha : Vector.find_if (named (Rest.param request ":name")) v
                 = List.length v).
    { apply StoreLaws.value_of_none. unfold value_of. now rewrite Hm. }
    rewrite (StatsFacts.doRecordMetric_absent stray request v Ha).
    unfold store; cbn [fst snd]. rewrite map_app. cbn [map Metric.name Metric.name_].
    apply NoDup_app; [assumption | repeat constructor; intros [] |].
    intros n Hin [<-|[]].
    apply in_map_iff in Hin. destruct Hin as [m' [Hn Hin]].
    exact (proj2 (MetricsClaims.absent_iff _ _) Ha m' Hin Hn).
Qed.

Lemma callback_keeps_distinct (stray : Metric.t) (h : handler)
    (request : Rest.Request) (v : Vector.t) :
  NoDup (map Metric.name v) ->
  NoDup (map Metric.name (store (callback stray h request v))).
Proof.
  destruct h; cbn [callback].
  - apply record_keeps_distinct.
  - now rewrite get_store.
Qed.

(** One call on a store that holds metrics: the process lives on and the
    store still holds metrics. *)
Lemma serve_step (stray : Metric.t) (h : handler) (request : Rest.Request)
    (rest : list (handler * Rest.Request)) (v : Vector.t) :
  (v <> [] \/ h = DoRecordMetric) ->
  serve_all stray ((h, request) :: rest) v =
    serve_all stray rest (store (callback stray h request v))
  /\ store (callback stray h request v) <> [].
Proof.
  intros Hv. cbn [serve_all].
  assert (H : ending (callback stray h request v) = Value tt
              /\ store (callback stray h request v) <> []).
  { destruct h; cbn [callback].
    - apply record_value.
    - destruct Hv as [Hv|Hv]; [|discriminate Hv].
      split; [now apply get_sends | now rewrite get_store]. }
  destruct H as [He Hs]. split; [|exact Hs].
  destruct (callback stray h request v) as [[[u|] v'] t];
    [reflexivity | discriminate He].
Qed.

(** X1: recording one name leaves the answer to a read of any other
    recorded name as it was: the same single 200 with the same value,
    after the call as before it. *)
Theorem record_leaves_other_names (stray : Metric.t)
    (request other : Rest.Request) (v : Vector.t) (m : Metric.t) :
  Rest.param other ":name" <> Rest.param request ":name" ->
  nth_error v (Vector.find_if (named (Rest.param other ":name")) v) = Some m ->
  trace (doGetMetric stray other (store (doRecordMetric stray request v))) =
    [send_body Http.Ok (Int.to_string (Metric.value m))]
  /\ trace (doGetMetric stray other v) =
       [send_body Http.Ok (Int.to_string (Metric.value m))]
  /\ ending (doGetMetric stray other
               (store (doRecordMetric stray request v))) = Value tt.
Proof.
  intros Hne Hm.
  assert (Hv : value_of (Rest.param other ":name") v = Some (Metric.value m))
    by (unfold value_of; now rewrite Hm).
  assert (Hv' : value_of (Rest.param other ":name")
                  (store (doRecordMetric stray request v))
                = Some (Metric.value m)).
  { rewrite StoreLaws.value_of_record.
    destruct (String.eqb_spec (Rest.param request ":name")
                (Rest.param other ":name")); [congruence | exact Hv]. }
  rewrite (StoreLaws.get_reports stray other _ _ Hv').
  rewrite (StoreLaws.get_reports stray other _ _ Hv).
  repeat split.
Qed.

Lemma record_leaves_other_names_witness :
  trace (doGetMetric (Metric.Build "" 0) (for_name "a")
           (store (doRecordMetric (Metric.Build "" 0) (for_name "b")
                     [Metric.Build "a" 3]))) =
    [send_body Http.Ok "3"].
Proof.
  apply (record_leaves_other_names (Metric.Build "" 0) (for_name "b")
           (for_name "a") [Metric.Build "a" 3] (Metric.Build "a" 3)).
  - discriminate.
  - reflexivity.
Defined.

(** X2: the names of the store stay pairwise distinct under any
    sequence of calls of the two handlers. *)
Theorem served_names_distinct (stray : Metric.t)
    (calls : list (handler * Rest.Request)) :
  forall v : Vector.t,
    NoDup (map Metric.name v) ->
    NoDup (map Metric.name (serve_all stray calls v)).
Proof.
  induction calls as [|[h request] rest IH]; intros v Hv; [assumption|].
  cbn [serve_all].
  pose proof (callback_keeps_distinct stray h request v Hv) as H.
  destruct (callback stray h request v) as [[[u|] v'] t];
    unfold store in H; cbn [fst snd] in H.
  - now apply IH.
  - exact H.
Qed.

Lemma served_names_distinct_witness :
  NoDup (map Metric.name
           (serve_all (Metric.Build "" 0)
              [ (DoRecordMetric, for_name "a"); (DoGetMetric, for_name "b");
                (DoRecordMetric, for_name "b"); (DoRecordMetric, for_name "a") ]
              [])).
Proof.
  apply (served_names_distinct (Metric.Build "" 0)
           [ (DoRecordMetric, for_name "a"); (DoGetMetric, for_name "b");
             (DoRecordMetric, for_name "b"); (DoRecordMetric, for_name "a") ]
           []).
  constructor.
Defined.

(** X3: doGetMetric never writes: whatever the name, recorded or not,
    the store after the call is the store before it. *)
Theorem get_never_writes (stray : Metric.t) (request : Rest.Request)
    (v : Vector.t) :
  store (doGetMetric stray request v) = v.
Proof. apply get_store. Qed.

(** The values read after a sequence of calls on a store that holds
    metrics, from the values read before it. *)
Lemma serve_all_values (stray : Metric.t)
    (calls : list (handler * Rest.Request)) :
  forall (v : Vector.t) (before : string -> nat),
    v <> [] ->
    (forall n, value_of n v =
               if Nat.eqb (before n) 0 then None
               else Some (Z.of_nat (before n))) ->
    (forall n, (Z.of_nat (before n + recorded n calls) <= Int.max)%Z) ->
    serve_all stray calls v <> []
    /\ forall n,
         value_of n (serve_all stray calls v) =
           if Nat.eqb (before n + recorded n calls) 0 then None
           else Some (Z.of_nat (before n + recorded n calls)).
Proof.
  induction calls as [|[h request] rest IH]; intros v before Hne Hv Hmax.
  - cbn [serve_all recorded]. split; [assumption|].
    intros n. rewrite Nat.add_0_r. apply Hv.
  - destruct (serve_step stray h request rest v (or_introl Hne)) as [-> Hne'].
    destruct h; cbn [callback recorded] in *.
    + set (one := fun k => if String.eqb (Rest.param request ":name") k
                           then 1 else 0).
      destruct (IH _ (fun k => before k + one k) Hne') as [Hlive Hvals].
      * intros k. rewrite StoreLaws.value_of_record, (Hv k). unfold one.
        destruct (String.eqb (Rest.param request ":name") k) eqn:E.
        -- destruct (Nat.eqb_spec (before k) 0) as [Hz|Hz].
           ++ rewrite Hz. reflexivity.
           ++ destruct (Nat.eqb_spec (before k + 1) 0); [lia|].
              f_equal. specialize (Hmax k). rewrite E in Hmax.
              rewrite IntFacts.add_no_overflow; unfold Int.min; lia.
        -- rewrite Nat.add_0_r. reflexivity.
      * intros k. specialize (Hmax k). unfold one.
        now rewrite <- Nat.add_assoc.
      * split; [assumption|]. intros n. rewrite (Hvals n). unfold one.
        now rewrite Nat.add_assoc.
    + rewrite get_store in *. now apply IH.
Qed.

Lemma recorded_le (n : string) (calls : list (handler * Rest.Request)) :
  recorded n calls <= List.length calls.
Proof.
  induction calls as [|[[|] request] rest IH]; cbn [recorded List.length];
    [lia | | lia].
  destruct (String.eqb _ n); lia.
Qed.

(** X4: when the first call on the empty store is a record, after any
    sequence of further calls a read of a name that was recorded answers
    a single 200 with the number of calls that recorded that name,
    whatever other names and reads came in between; a read of a name
    that was not recorded sends the 404 and goes on to a second send. No
    name is recorded more often than the largest [int]. *)
Theorem served_counts (stray : Metric.t) (first : Rest.Request)
    (rest : list (handler * Rest.Request)) (request : Rest.Request) :
  (forall n,
     (Z.of_nat (recorded n ((DoRecordMetric, first) :: rest)) <= Int.max)%Z) ->
  ending (doGetMetric stray request
            (serve_all stray ((DoRecordMetric, first) :: rest) []))
    = Value tt
  /\ (0 < recorded (Rest.param request ":name")
            ((DoRecordMetric, first) :: rest) ->
      trace (doGetMetric stray request
               (serve_all stray ((DoRecordMetric, first) :: rest) [])) =
        [ send_body Http.Ok
            (Int.to_string
               (Z.of_nat (recorded (Rest.param request ":name")
                            ((DoRecordMetric, first) :: rest)))) ])
  /\ (recorded (Rest.param request ":name")
        ((DoRecordMetric, first) :: rest) = 0 ->
      sends (trace (doGetMetric stray request
                      (serve_all stray ((DoRecordMetric, first) :: rest) [])))
        = [ send_code Http.Not_Found;
            send_body Http.Ok (Int.to_string (Metric.value stray)) ]).
Proof.
  intros Hmax.
  destruct (serve_step stray DoRecordMetric first rest []
              (or_intror eq_refl)) as [-> _].
  cbn [callback].
  rewrite (StatsFacts.doRecordMetric_absent stray first [] eq_refl).
  change (store (Value tt, [] ++ [Metric.Build (Rest.param first ":name") 1],
                 [send_code Http.Created]))
    with [Metric.Build (Rest.param first ":name") 1].
  set (a := Rest.param first ":name").
  destruct (serve_all_values stray rest [Metric.Build a 1]
              (fun k => if String.eqb a k then 1 else 0))
    as [Hlive Hvals].
  - discriminate.
  - intros n. unfold value_of. cbn [Vector.find_if].
    rewrite StoreLaws.named_eqb. cbn [Metric.name Metric.name_].
    destruct (String.eqb a n); reflexivity.
  - intros n. apply Hmax.
  - cbn [recorded]. fold a.
    destruct (get_sends stray request _ Hlive) as [Hend Hsends].
    split; [exact Hend|].
    rewrite (Hvals (Rest.param request ":name")) in Hsends.
    split.
    + intros Hpos.
      pose proof (Hvals (Rest.param request ":name")) as Hval.
      destruct (Nat.eqb_spec
                  ((if String.eqb a (Rest.param request ":name")
                    then 1 else 0)
                   + recorded (Rest.param request ":name") rest) 0)
        as [E|E]; [lia|].
      now rewrite (StoreLaws.get_reports stray request _ _ Hval).
    + intros Hzero. rewrite Hzero in Hsends. exact Hsends.
Qed.

Lemma served_counts_witness :
  trace (doGetMetric (Metric.Build "" 0) (for_name "a")
           (serve_all (Metric.Build "" 0)
              [ (DoRecordMetric, for_name "a");
                (DoRecordMetric, for_name "b");
                (DoGetMetric, for_name "c");
                (DoRecordMetric, for_name "a") ] [])) =
    [ send_body Http.Ok "2" ].
Proof.
  destruct (served_counts (Metric.Build "" 0) (for_name "a")
              [ (DoRecordMetric, for_name "b");
                (DoGetMetric, for_name "c");
                (DoRecordMetric, for_name "a") ] (for_name "a"))
    as (_ & Hfound & _).
  - intros n.
    pose proof (recorded_le n
                  [ (DoRecordMetric, for_name "a");
                    (DoRecordMetric, for_name "b");
                    (DoGetMetric, for_name "c");
                    (DoRecordMetric, for_name "a") ]) as H.
    cbn [List.length] in H. unfold Int.max. lia.
  - apply Hfound. cbn. lia.
Defined.


(** X5: doRecordMetric answers every call exactly once, 201 without a
    body or 200, and never reads outside the vector. *)
Theorem record_answers_once (stray : Metric.t) (request : Rest.Request)
    (v : Vector.t) :
  (trace (doRecordMetric stray request v) = [send_code Http.Created]
   \/ exists z, trace (doRecordMetric stray request v) =
                  [send_body Http.Ok (Int.to_string z)])
  /\ List.length (sends (trace (doRecordMetric stray request v))) = 1
  /\ existsb is_out_of_range (trace (doRecordMetric stray request v)) = false.
Proof.
  destruct (nth_error v (Vector.find_if (named (Rest.param request ":name")) v))
    as [m|] eqn:Hm.
  - rewrite (StatsFacts.doRecordMetric_found stray request v m Hm).
    split; [right; eexists; reflexivity | split; reflexivity].
  - assert (Ha : Vector.find_if (named (Rest.param request ":name")) v
                 = List.length v).
    { apply StoreLaws.value_of_none. unfold value_of. now rewrite Hm. }
    rewrite (StatsFacts.doRecordMetric_absent stray request v Ha).
    split; [left; reflexivity | split; reflexivity].
Qed.

Lemma records_then_get_witness :
  trace (doGetMetric (Metric.Build "" 0) (for_name "x")
           (record_times (Metric.Build "" 0) (for_name "x") (Z.to_nat 3)
              [Metric.Build "y" 7])) =
    [send_body Http.Ok "3"].
Proof.
  apply (Sequential.records_then_get (Metric.Build "" 0) (for_name "x")
           [Metric.Build "y" 7] eq_refl 3%Z).
  unfold Int.max. lia.
Defined.

End ServiceLaws.

(** ** MyHandler over all requests *)

Module HandlerLaws.

Import Http MyHandler.

(** Splits a goal about [onRequest] along the tests the handler makes. *)
Ltac by_route req :=
  unfold onRequest;
  destruct (String.eqb_spec (resource req) "/ping");
  [ destruct (Method_eqb (method req) Get) eqn:?;
    [ destruct (has (query req) "chunked") eqn:? | ]
  | destruct (String.eqb_spec (resource req) "/echo");
    [ destruct (Method_eqb (method req) Post) eqn:?
    | destruct (String.eqb_spec (resource req) "/exception");
      [ | destruct (String.eqb_spec (resource req) "/timeout");
          [ | destruct (String.eqb_spec (resource req) "/static");
              [ destruct (Method_eqb (method req) Get) eqn:? | ] ] ] ] ];
  repeat match goal with
    | H : Method_eqb _ _ = true |- _ => apply PingClaims.Method_eqb_eq in H
    | H : Method_eqb _ _ = false |- _ => apply PingClaims.Method_eqb_neq in H
    end;
  cbn; unfold send_mime.

(** X7: whatever the request, the handler starts at most one answer and
    arms at most one timeout; and when it throws, it has done nothing
    else. *)
Theorem onRequest_at_most_one_answer (req : Request) :
  List.length (filter is_answer (onRequest req)) <= 1
  /\ List.length (filter is_arm (onRequest req)) <= 1
  /\ (existsb is_throw (onRequest req) = true ->
        onRequest req = [Throw "Exception thrown in the handler"]).
Proof.
  by_route req; repeat split; try lia; try discriminate.
Qed.

(** X8: the handler arms a timeout exactly on /timeout, for 5 seconds
    and whatever the method, and on a GET to /ping, for 2 seconds. *)
Theorem onRequest_arms_iff (req : Request) (seconds : Z) :
  In (Arm seconds) (onRequest req) <->
  (resource req = "/timeout" /\ seconds = 5%Z)
  \/ (resource req = "/ping" /\ method req = Get /\ seconds = 2%Z).
Proof.
  by_route req; intuition congruence.
Qed.

(** X9: the only complete response the handler sends by itself is the
    echo: status 200, the body of the request as it came, text/plain,
    and only for a POST on /echo. *)
Theorem onRequest_sends_iff (req : Request) (code : Code) (text : string)
    (mime : option MediaType) :
  In (Send code text mime) (onRequest req) <->
  resource req = "/echo" /\ method req = Post /\ code = Ok
  /\ text = body req /\ mime = Some (MIME Text Plain).
Proof.
  by_route req; intuition congruence.
Qed.

(** X10: a request is passed over in silence, with no answer, no
    timeout and no exception, exactly when its path is none of the five
    the handler knows or its method is not the one the path is served
    for. *)
Theorem onRequest_silent_iff (req : Request) :
  onRequest req = [] <->
  ~ ((resource req = "/ping" /\ method req = Get)
     \/ (resource req = "/echo" /\ method req = Post)
     \/ resource req = "/exception"
     \/ resource req = "/timeout"
     \/ (resource req = "/static" /\ method req = Get)).
Proof.
  by_route req; intuition congruence.
Qed.

Lemma onRequest_at_most_one_answer_witness :
  onRequest (mkRequest Delete "/exception" [] "") =
    [Throw "Exception thrown in the handler"].
Proof.
  apply (onRequest_at_most_one_answer (mkRequest Delete "/exception" [] "")).
  reflexivity.
Defined.

Lemma onRequest_arms_iff_witness :
  In (Arm 5) (onRequest (mkRequest Put "/timeout" [] "")).
Proof.
  apply (proj2 (onRequest_arms_iff (mkRequest Put "/timeout" [] "") 5)).
  left. split; reflexivity.
Defined.

Lemma onRequest_sends_iff_witness :
  In (Send Ok "hello" (Some (MIME Text Plain)))
     (onRequest (mkRequest Post "/echo" [] "hello")).
Proof.
  apply (proj2 (onRequest_sends_iff (mkRequest Post "/echo" [] "hello")
                  Ok "hello" (Some (MIME Text Plain)))).
  repeat split.
Defined.

Lemma onRequest_silent_iff_witness :
  onRequest (mkRequest Get "/echo" [] "hello") = [].
Proof.
  apply (proj2 (onRequest_silent_iff (mkRequest Get "/echo" [] "hello"))).
  cbn. intuition congruence.
Defined.

End HandlerLaws.

(** ** The load monitor over all snapshots and all runs *)

Module MonitorLaws.

Import LoadMonitor.

Lemma SFcompare_none (x y : double) :
  SFcompare x y = None -> x = S754_nan \/ y = S754_nan.
Proof.
  destruct x as [sx|sx| |sx mx ex], y as [sy|sy| |sy my ey]; cbn;
    intros H; try discriminate H; auto.
Qed.

Lemma not_gt_le (x y : double) :
  SFcompare x y <> None -> gt x y = false -> le x y = true.
Proof.
  unfold gt, le, SFltb, SFleb. rewrite (LoadClaims.SFcompare_swap x y).
  destruct (SFcompare x y) as [[| |]|]; cbn; congruence.
Qed.

(** X11: whatever the snapshot holds, infinities and NaN included, the
    line printed is either the one that reads 0% or one that shows a
    value above 1 and at most 100, which is the load itself or 100. *)
Theorem report_in_range (load : Load) :
  report load = [Str "Global load is 0%"; Endl]
  \/ exists shown : double,
       report load = [Str "Global load is "; Dbl shown; Str "%"; Endl]
       /\ gt shown one = true
       /\ le shown hundred = true
       /\ (shown = global load \/ shown = hundred).
Proof.
  unfold report.
  destruct (gt (global load) hundred) eqn:Hbig.
  - right. exists hundred. rewrite LoadClaims.hundred_gt_one.
    repeat split. now right.
  - destruct (gt (global load) one) eqn:Hsmall; [|now left].
    right. exists (global load). repeat split; [assumption | | now left].
    apply not_gt_le; [|assumption].
    intros Hnone. apply SFcompare_none in Hnone.
    destruct Hnone as [Hnan|Hnan]; [|discriminate Hnan].
    rewrite Hnan in Hsmall. discriminate Hsmall.
Qed.

Lemma printed_quiet (p : poll) :
  filter is_request (printed p) = [] /\ filter is_sleep (printed p) = [].
Proof. unfold printed, onLoad. destruct (sample p); split; reflexivity. Qed.

(** X13: in every run each load request is paired with one sleep, and
    there are no more of them than readings that found the endpoint
    bound. *)
Theorem run_requests_sleeps (interval : Z) (polls : list poll) :
  forall old : Load,
    List.length (filter is_request (fst (run interval old polls))) =
    List.length (filter is_sleep (fst (run interval old polls)))
    /\ List.length (filter is_sleep (fst (run interval old polls)))
       <= List.length (filter bound polls).
Proof.
  induction polls as [|p rest IH]; intros old; [cbn; lia|].
  cbn [run filter]. destruct (shutdown_seen p); [cbn; lia|].
  destruct (bound p); cbn [negb].
  - specialize (IH (kept old p)).
    destruct (run interval (kept old p) rest) as [later st].
    cbn [fst] in *. cbn [filter is_request is_sleep].
    rewrite !filter_app. destruct (printed_quiet p) as [-> ->].
    cbn [app filter is_request is_sleep List.length]. lia.
  - apply IH.
Qed.

(** X14: as long as the endpoint is not bound the loop neither asks for
    the load nor sleeps, however many times it goes round. *)
Theorem run_unbound_spins (interval : Z) (polls : list poll) :
  (forall p, In p polls -> bound p = false) ->
  forall old : Load, fst (run interval old polls) = [].
Proof.
  induction polls as [|p rest IH]; intros Hall old; [reflexivity|].
  cbn [run]. destruct (shutdown_seen p); [reflexivity|].
  rewrite (Hall p) by now left. cbn [negb].
  apply IH. intros q Hq. apply Hall. now right.
Qed.

Lemma run_unbound_spins_witness :
  fst (run 1 (mkLoad one)
         [mkPoll false false None; mkPoll false false None;
          mkPoll false false (Some (mkLoad hundred))]) = [].
Proof.
  apply (run_unbound_spins 1
           [mkPoll false false None; mkPoll false false None;
            mkPoll false false (Some (mkLoad hundred))]).
  intros p [<-|[<-|[<-|[]]]]; reflexivity.
Defined.

End MonitorLaws.

(** ** The command line, whatever it holds *)

Module CommandLineLaws.

Import StatsEndpoint Main.

Lemma wrap_range (z : Z) : (Int.min <= Int.wrap z <= Int.max)%Z.
Proof.
  unfold Int.wrap, Int.signed, Int.min, Int.max.
  change (2 ^ (32 - 1))%Z with 2147483648%Z.
  change (2 ^ 32)%Z with 4294967296%Z.
  pose proof (Z.mod_pos_bound (z + 2147483648) 4294967296). lia.
Qed.

(** X15: a number that [stol] accepts is never refused for its size.
    The port bound is the number given reduced modulo 65536, which is
    the number itself exactly when it lies between 0 and 65535; the
    thread count, read when there are exactly two arguments, is the
    number given reduced to 32 bits, which is the number itself exactly
    when it is an [int]. *)
Theorem arguments_reduced (argv : list string) (p : Z) :
  2 <= List.length argv ->
  stol (nth 1 argv "") = inr p ->
  (List.length argv <> 3 ->
     arguments argv = inr ((p mod 65536)%Z, 2%Z))
  /\ (forall n, List.length argv = 3 -> stol (nth 2 argv "") = inr n ->
        arguments argv = inr ((p mod 65536)%Z, Int.wrap n)
        /\ (Int.min <= Int.wrap n <= Int.max)%Z
        /\ (Int.wrap n = n <-> (Int.min <= n <= Int.max)%Z))
  /\ (0 <= p mod 65536 <= 65535)%Z
  /\ (p mod 65536 = p <-> 0 <= p <= 65535)%Z.
Proof.
  intros Hlen Hp. unfold arguments, Int.to_uint16.
  apply Nat.leb_le in Hlen. rewrite Hlen, Hp.
  pose proof (Z.mod_pos_bound p 65536) as Hmod.
  split; [|split; [|split]].
  - intros H3. apply Nat.eqb_neq in H3. now rewrite H3.
  - intros n H3 Hn. rewrite H3, Hn. cbn [Nat.eqb].
    split; [reflexivity|]. split; [apply wrap_range|].
    split.
    + intros <-. apply wrap_range.
    + apply IntFacts.wrap_in_range.
  - lia.
  - split.
    + intros <-. lia.
    + intros H. apply Z.mod_small. lia.
Qed.

Lemma arguments_reduced_witness :
  arguments ["main"; "70000"; "-4294967297"] = inr (4464, -1)%Z.
Proof.
  apply (proj1 (proj2 (arguments_reduced ["main"; "70000"; "-4294967297"]
                         70000 (Nat.le_succ_diag_r 2) eq_refl))
           (-4294967297)%Z);
    reflexivity.
Defined.

(** X16: the thread count is read from the command line only when there
    are exactly two arguments after the program name; with fewer or
    with more it stays 2, and without any argument the port is 9080. *)
Theorem arguments_thread_count (argv : list string) (port thr : Z) :
  arguments argv = inr (port, thr) ->
  (List.length argv <> 3 -> thr = 2%Z)
  /\ (List.length argv < 2 -> port = 9080%Z).
Proof.
  unfold arguments.
  destruct (Nat.leb_spec 2 (List.length argv)).
  - destruct (stol (nth 1 argv "")) as [e|p]; [discriminate|].
    destruct (Nat.eqb_spec (List.length argv) 3).
    + destruct (stol (nth 2 argv "")) as [e'|n]; [discriminate|].
      intros [= <- <-]. split; intros; [contradiction | lia].
    + intros [= <- <-]. split; intros; [reflexivity | lia].
  - intros [= <- <-]. split; reflexivity.
Qed.

Lemma arguments_thread_count_witness :
  exists thr,
    arguments ["main"; "9080"; "8"; "extra"] = inr (9080%Z, thr)
    /\ thr = 2%Z.
Proof.
  exists 2%Z. split; [reflexivity|].
  apply (proj1 (arguments_thread_count ["main"; "9080"; "8"; "extra"]
                  9080 2 eq_refl)).
  cbn. discriminate.
Defined.

(** X18: [main] ends by an exception, before printing or setting up
    anything, exactly when the port argument is given and [stol] rejects
    it, or when there are exactly two arguments and [stol] accepts the
    port and rejects the thread count; the exception is the one of
    [stol]. *)
Theorem main_throws_iff (cores : Z) (argv : list string) (e : exception) :
  main cores argv = inl e <->
  (2 <= List.length argv /\ stol (nth 1 argv "") = inl e)
  \/ (List.length argv = 3
      /\ (exists p, stol (nth 1 argv "") = inr p)
      /\ stol (nth 2 argv "") = inl e).
Proof.
  unfold main, arguments.
  destruct (Nat.leb_spec 2 (List.length argv)) as [Hlen|Hlen].
  - destruct (stol (nth 1 argv "")) as [e1|p] eqn:Hport.
    + split.
      * intros [= ->]. left. auto.
      * intros [[_ H]|(_ & [q Hq] & _)]; congruence.
    + destruct (Nat.eqb_spec (List.length argv) 3) as [H3|H3].
      * destruct (stol (nth 2 argv "")) as [e2|n] eqn:Hthr.
        -- split.
           ++ intros [= ->]. right. eauto.
           ++ intros [[_ H]|(_ & _ & H)]; congruence.
        -- split; [discriminate|].
           intros [[_ H]|(_ & _ & H)]; congruence.
      * split; [discriminate|].
        intros [[_ H]|(H & _)]; [congruence | contradiction].
  - split; [discriminate|].
    intros [[H _]|(H & _)]; lia.
Qed.

Lemma main_throws_iff_witness :
  main 4 ["main"; "http"] = inl invalid_argument
  /\ main 4 ["main"; "9080"; "99999999999999999999"] = inl out_of_range.
Proof.
  split.
  - apply (proj2 (main_throws_iff 4 ["main"; "http"] invalid_argument)).
    left. split; [cbn; lia | reflexivity].
  - apply (proj2 (main_throws_iff 4 ["main"; "9080"; "99999999999999999999"]
                    out_of_range)).
    right. split; [reflexivity|]. split; [now exists 9080%Z | reflexivity].
Defined.

End CommandLineLaws.
